(** * PromptProcessor (scripts/process_prompt.py): a shallow embedding

    Python strings are modelled as [string] (lists of ASCII characters).
    Python exceptions are modelled by the [result] type below; side effects
    that the claims are about (client creation, file reads, network calls)
    are recorded in an explicit event trace. *)

From Stdlib Require Import String Ascii List Bool Arith ZArith Lia.
Import ListNotations.
Open Scope string_scope.
Open Scope bool_scope.

(** ** Python string helpers *)

Definition nl : ascii := Ascii.ascii_of_nat 10.

(** [s.startswith(p)] *)
Definition startswith (s p : string) : bool := String.prefix p s.

(** [sub in s] *)
Fixpoint contains (sub s : string) : bool :=
  String.prefix sub s ||
  match s with
  | EmptyString => false
  | String _ r => contains sub r
  end.

(** [s.endswith(suf)] *)
Definition endswith (s suf : string) : bool :=
  (String.length suf <=? String.length s)%nat &&
  String.eqb (substring (String.length s - String.length suf) (String.length suf) s) suf.

(** [s.rstrip('/')] *)
Fixpoint rstrip_slash (s : string) : string :=
  match s with
  | EmptyString => EmptyString
  | String c r =>
      let r' := rstrip_slash r in
      if String.eqb r' "" && Ascii.eqb c "/"%char then "" else String c r'
  end.

Fixpoint all_chars (p : ascii -> bool) (s : string) : bool :=
  match s with
  | EmptyString => true
  | String c r => p c && all_chars p r
  end.

Definition in_range (lo hi : nat) (c : ascii) : bool :=
  (lo <=? nat_of_ascii c)%nat && (nat_of_ascii c <=? hi)%nat.

Definition is_lower (c : ascii) : bool := in_range 97 122 c.
Definition is_upper (c : ascii) : bool := in_range 65 90 c.
Definition is_digit (c : ascii) : bool := in_range 48 57 c.

(** The last character of a string, if any. *)
Definition last_char (s : string) : option ascii := get (String.length s - 1) s.

(** The string without its last character. *)
Definition init (s : string) : string := substring 0 (String.length s - 1) s.

(** [re.match] of a pattern of the form [^body$] on [s], where [full]
    decides whether the whole string is in the language of [body].
    Python's [$] (without MULTILINE) matches at the end of the string and
    also just before a newline that ends the string. *)
Definition py_match_anchored (full : string -> bool) (s : string) : bool :=
  full s ||
  (match last_char s with Some c => Ascii.eqb c nl | None => false end
   && full (init s)).

(** ** S3 name validation (PromptProcessor._validate_s3_bucket_name) *)

(** [[a-z0-9]] *)
Definition bucket_edge_char (c : ascii) : bool := is_lower c || is_digit c.
(** [[a-z0-9.-]] *)
Definition bucket_mid_char (c : ascii) : bool :=
  is_lower c || is_digit c || Ascii.eqb c "."%char || Ascii.eqb c "-"%char.

(** The language of [[a-z0-9][a-z0-9.-]{1,61}[a-z0-9]], as a whole string. *)
Definition bucket_pattern_full (s : string) : bool :=
  let n := String.length s in
  (3 <=? n)%nat && (n <=? 63)%nat &&
  match get 0 s, get (n - 1) s with
  | Some a, Some b => bucket_edge_char a && bucket_edge_char b
  | _, _ => false
  end &&
  all_chars bucket_mid_char (substring 1 (n - 2) s).

Definition _validate_s3_bucket_name (bucket_name : string) : bool :=
  if negb (py_match_anchored bucket_pattern_full bucket_name) then false
  else if contains ".." bucket_name || contains ".-" bucket_name
          || contains "-." bucket_name then false
  else true.

(** ** S3 prefix validation (PromptProcessor._validate_s3_prefix) *)

(** [[a-zA-Z0-9/_-]] *)
Definition prefix_char (c : ascii) : bool :=
  is_lower c || is_upper c || is_digit c || Ascii.eqb c "/"%char
  || Ascii.eqb c "_"%char || Ascii.eqb c "-"%char.

(** The language of the pattern body [[a-zA-Z0-9/_-]] repeated, as a whole string. *)
Definition prefix_pattern_full (s : string) : bool := all_chars prefix_char s.

Definition _validate_s3_prefix (prefix : string) : bool :=
  if contains ".." prefix || startswith prefix "/" then false
  else py_match_anchored prefix_pattern_full prefix.

(** The two validators as the spec words them (whole-string regex match). *)
Definition isValidBucketName_spec (s : string) : bool :=
  bucket_pattern_full s &&
  negb (contains ".." s || contains ".-" s || contains "-." s).

Definition isValidPrefix_spec (s : string) : bool :=
  negb (contains ".." s) && negb (startswith s "/") && prefix_pattern_full s.

(** ** Errors and effects *)

(** One constructor per [raise] site of process_prompt.py that the claims
    reach; the payload is what the message names. *)
Inductive py_error :=
| InvalidRegion (region : string)            (* __init__ *)
| InvalidBucketName (bucket : string)        (* __init__ *)
| InvalidPrefix (prefix : string)            (* __init__ *)
| ClientInitFailed (service : string)        (* boto3.client raising *)
| InvalidPath (path : string)                (* _validate_path *)
| FileNotFound (path : string)
| TemplateTooLarge (size : nat)
| InvalidJSON
| InvalidConfiguration                       (* jsonschema ValidationError *)
| TooManyVariables (n : nat)
| MissingVariable (name : string)            (* KeyError in substitute *)
| InvalidPlaceholder (pos : nat)             (* Template._invalid *)
| UnsupportedModel (model_id : string)
| ResponseShapeError                         (* KeyError/IndexError/TypeError *)
| BedrockFailed (code msg : string)          (* RuntimeError from ClientError *)
| S3UploadFailed (code msg : string).

Inductive result (A : Type) :=
| Ok (a : A)
| Err (e : py_error).
Arguments Ok {A} a.
Arguments Err {A} e.

Set Warnings "-register-all".

(** What [json.load] returns. An integer literal is an [int]; any other
    number literal is a [float], kept here as its exact decimal value
    [m * 10^-e] (the schema's bounds 0, 1, 1 and 100000 are compared
    against it exactly). *)
Inductive json :=
| JNull
| JBool (b : bool)
| JInt (z : Z)
| JFloat (m : Z) (e : nat)
| JStr (s : string)
| JArr (l : list json)
| JObj (kvs : list (string * json)).

(** Observable effects, in the order they happen. *)
Inductive event :=
| CreateClient (service region : string)
| StatFile (path : string)
| ReadFile (path : string)
| InvokeModel (model_id : string) (body : json)   (* body = json.dumps(body) *)
| UploadFile (local_path key : string).

(** ** Construction (PromptProcessor.__init__) *)

Definition ALLOWED_REGIONS : list string :=
  [ "us-east-1"; "us-east-2"; "us-west-1"; "us-west-2";
    "eu-west-1"; "eu-west-2"; "eu-central-1";
    "ap-southeast-1"; "ap-southeast-2"; "ap-northeast-1" ].

Definition region_allowed (r : string) : bool :=
  existsb (String.eqb r) ALLOWED_REGIONS.

Record PromptProcessor := mkProcessor {
  aws_region : string;
  s3_bucket : string;
  s3_prefix : string
}.

Section Init.
(** Whether [boto3.client(service, region_name=region)] raises. *)
Variable client_raises : string -> string -> bool.

Definition PromptProcessor_init (aws_region s3_bucket s3_prefix : string)
  : list event * result PromptProcessor :=
  if negb (region_allowed aws_region) then ([], Err (InvalidRegion aws_region))
  else if negb (_validate_s3_bucket_name s3_bucket)
  then ([], Err (InvalidBucketName s3_bucket))
  else if negb (_validate_s3_prefix s3_prefix)
  then ([], Err (InvalidPrefix s3_prefix))
  else
    let self := mkProcessor aws_region s3_bucket (rstrip_slash s3_prefix ++ "/") in
    let e1 := CreateClient "bedrock-runtime" aws_region in
    if client_raises "bedrock-runtime" aws_region
    then ([e1], Err (ClientInitFailed "bedrock-runtime"))
    else
      let e2 := CreateClient "s3" aws_region in
      if client_raises "s3" aws_region
      then ([e1; e2], Err (ClientInitFailed "s3"))
      else ([e1; e2], Ok self).
End Init.

(** The object key computed in process_prompt:
    [f"{self.s3_prefix}outputs/{output_name}.{output_format}"]. *)
Definition s3_key_of (self : PromptProcessor) (output_name output_format : string)
  : string :=
  s3_prefix self ++ "outputs/" ++ output_name ++ "." ++ output_format.

(** ** Python dicts

    A dict is an association list; as for a dict built by [json.load] or a
    literal, a later binding of a key overrides an earlier one. *)
Fixpoint dict_get {V : Type} (d : list (string * V)) (k : string) : option V :=
  match d with
  | [] => None
  | (k', v) :: r =>
      match dict_get r k with
      | Some v' => Some v'
      | None => if String.eqb k k' then Some v else None
      end
  end.

(** The keys of a dict, each once ([len(d)] is the length of this list). *)
Fixpoint dict_keys {V : Type} (d : list (string * V)) : list string :=
  match d with
  | [] => []
  | (k, _) :: r =>
      let ks := dict_keys r in
      if existsb (String.eqb k) ks then ks else k :: ks
  end.

Definition dict_len {V : Type} (d : list (string * V)) : nat :=
  List.length (dict_keys d).

(** ** string.Template (used by PromptProcessor.render_template)

    [Template.pattern] is
<<
    \$(?: (?P<escaped>\$) | (?P<named>ID) | {(?P<braced>ID)} | (?P<invalid>) )
>>
    with ID an ASCII letter or underscore followed by ASCII letters, digits
    and underscores (the idpattern under [re.IGNORECASE]).  [re.sub] walks
    the template left to right; the text between two matches is copied and
    each match is passed to [convert]. [scan] cuts the template into these
    pieces: one [TLit] per copied character, one token per match. *)

Inductive tok :=
| TLit (c : ascii)
| TEsc                      (* $$ *)
| TNamed (name : string)    (* $name *)
| TBraced (name : string)   (* ${name} *)
| TInvalid (pos : nat).     (* any other $, at index pos *)

Definition ident_start (c : ascii) : bool :=
  is_lower c || is_upper c || Ascii.eqb c "_"%char.
Definition ident_char (c : ascii) : bool := ident_start c || is_digit c.

(** The greedy identifier tail (letters, digits, underscores) and the rest. *)
Fixpoint take_ident (s : string) : string * string :=
  match s with
  | String c r =>
      if ident_char c then let (id, rest) := take_ident r in (String c id, rest)
      else ("", s)
  | EmptyString => ("", "")
  end.

(** [ID}] after [${]: the identifier and the rest after the brace. *)
Definition braced_ident (s : string) : option (string * string) :=
  match s with
  | String c r =>
      if ident_start c then
        let (id, rest) := take_ident r in
        match rest with
        | String b rest' => if Ascii.eqb b "}"%char then Some (String c id, rest')
                            else None
        | EmptyString => None
        end
      else None
  | EmptyString => None
  end.

Fixpoint scan_fuel (fuel pos : nat) (s : string) : list tok :=
  match fuel with
  | O => []
  | S f =>
    match s with
    | EmptyString => []
    | String c r =>
      if Ascii.eqb c "$"%char then
        match r with
        | EmptyString => [TInvalid pos]
        | String d r' =>
          if Ascii.eqb d "$"%char then TEsc :: scan_fuel f (pos + 2) r'
          else if ident_start d then
            let (id, rest) := take_ident r' in
            TNamed (String d id) :: scan_fuel f (pos + 2 + String.length id) rest
          else if Ascii.eqb d "{"%char then
            match braced_ident r' with
            | Some (id, rest) =>
                TBraced id :: scan_fuel f (pos + 3 + String.length id) rest
            | None => TInvalid pos :: scan_fuel f (pos + 1) r
            end
          else TInvalid pos :: scan_fuel f (pos + 1) r
        end
      else TLit c :: scan_fuel f (pos + 1) r
    end
  end.

(** Every step consumes at least one character, so [length + 1] steps do. *)
Definition scan (s : string) : list tok := scan_fuel (S (String.length s)) 0 s.

(** [Template.substitute(mapping)]: [convert] on each match, in order; the
    first failing [convert] aborts the whole call. *)
Fixpoint substitute (mapping : list (string * string)) (ts : list tok)
  : result string :=
  match ts with
  | [] => Ok ""
  | t :: ts' =>
    let piece :=
      match t with
      | TLit c => Ok (String c "")
      | TEsc => Ok "$"
      | TNamed x | TBraced x =>
          match dict_get mapping x with
          | Some v => Ok v
          | None => Err (MissingVariable x)       (* KeyError *)
          end
      | TInvalid p => Err (InvalidPlaceholder p)   (* ValueError *)
      end in
    match piece with
    | Err e => Err e
    | Ok s =>
      match substitute mapping ts' with
      | Err e => Err e
      | Ok s' => Ok (s ++ s')
      end
    end
  end.

(** PromptProcessor.render_template: a [KeyError] becomes
    [ValueError("Missing required variable: ...")]; any other exception
    (the [ValueError] of an invalid placeholder) is re-raised as is. *)
Definition render_template (template_content : string)
  (variables : list (string * string)) : result string :=
  substitute variables (scan template_content).

(** ** Paths (PromptProcessor._validate_path, load_template) *)

(** [s.split('/')]. *)
Fixpoint split_slash (s : string) : list string :=
  match s with
  | EmptyString => [""]
  | String c r =>
      let segs := split_slash r in
      if Ascii.eqb c "/"%char then "" :: segs
      else match segs with
           | seg :: rest => String c seg :: rest
           | [] => [String c ""]
           end
  end.

(** One step of lexical normalisation on a stack of directory names (the
    innermost first): empty and ["."] segments are dropped, [".."] goes up
    (staying at the root), any other name goes down. *)
Definition normalize_seg (stack : list string) (seg : string) : list string :=
  if String.eqb seg "" || String.eqb seg "." then stack
  else if String.eqb seg ".." then tl stack
  else seg :: stack.

(** ["/" + "/".join(segs)] *)
Fixpoint concat_segs (segs : list string) : string :=
  match segs with
  | [] => ""
  | seg :: rest => "/" ++ seg ++ concat_segs rest
  end.

Definition join_abs (segs : list string) : string :=
  match segs with
  | [] => "/"
  | _ => concat_segs segs
  end.

(** [Path(p).resolve()] on a file system without symbolic links, with
    working directory [cwd]: the path is joined to [cwd] unless it is
    absolute, then normalised lexically. It never raises. *)
Definition resolve_lexical (cwd p : string) : option string :=
  let full := if startswith p "/" then p else cwd ++ "/" ++ p in
  Some (join_abs (rev (fold_left normalize_seg (split_slash full) []))).

(** [PromptProcessor.PROMPT_TEMPLATES_DIR]: a class attribute, so
    [Path('prompt_templates').resolve()] runs once, in the working
    directory [import_cwd] of the import. *)
Definition PROMPT_TEMPLATES_DIR (import_cwd : string) : string :=
  match resolve_lexical import_cwd "prompt_templates" with
  | Some p => p
  | None => "prompt_templates"
  end.

Definition MAX_TEMPLATE_SIZE : nat := 100 * 1024.

Section FileSystem.
(** [Path.resolve()]: the canonical absolute path, or [None] if it raises. *)
Variable resolve : string -> option string.
(** [validated_path.stat().st_size], or [None] for a missing file. *)
Variable stat_size : string -> option nat.
(** The text [open(...).read()] returns, or [None] if it raises. *)
Variable read_file : string -> option string.

(** Both the ValueError raised inside the [try] and an exception of
    [resolve] are caught by [except Exception] and re-raised as
    [ValueError(f"Invalid path: {file_path}")]. *)
Definition _validate_path (file_path base_dir : string) : result string :=
  match resolve file_path, resolve base_dir with
  | Some resolved_path, Some resolved_base =>
      if negb (startswith resolved_path resolved_base)
      then Err (InvalidPath file_path)
      else Ok resolved_path
  | _, _ => Err (InvalidPath file_path)
  end.

Definition load_template (templates_dir template_path : string)
  : list event * result string :=
  match _validate_path template_path templates_dir with
  | Err e => ([], Err e)
  | Ok validated_path =>
      match stat_size validated_path with
      | None => ([StatFile validated_path], Err (FileNotFound validated_path))
      | Some file_size =>
          if Nat.ltb MAX_TEMPLATE_SIZE file_size
          then ([StatFile validated_path], Err (TemplateTooLarge file_size))
          else
            match read_file validated_path with
            | None => ([StatFile validated_path; ReadFile validated_path],
                       Err (FileNotFound validated_path))
            | Some content => ([StatFile validated_path; ReadFile validated_path],
                               Ok content)
            end
      end
  end.
End FileSystem.

(** ** JSON values and the configuration schema (PROMPT_CONFIG_SCHEMA) *)

(** [[a-zA-Z0-9_-]] *)
Definition name_char (c : ascii) : bool :=
  is_lower c || is_upper c || is_digit c || Ascii.eqb c "_"%char
  || Ascii.eqb c "-"%char.

(** The language of [[a-zA-Z0-9_-]+\.txt], as a whole string. *)
Definition template_pattern_full (s : string) : bool :=
  let n := String.length s in
  (5 <=? n)%nat && endswith s ".txt"
  && all_chars name_char (substring 0 (n - 4) s).

(** The language of [[a-zA-Z0-9_-]+], as a whole string. *)
Definition output_name_pattern_full (s : string) : bool :=
  negb (String.eqb s "") && all_chars name_char s.

(** jsonschema's ["type": "integer"]: an int, or a float with no fraction
    (a bool is neither). *)
Definition json_integer_value (v : json) : option (Z * Z) :=
  match v with
  | JInt z => Some (z, 1%Z)
  | JFloat m e =>
      let d := (10 ^ Z.of_nat e)%Z in
      if (Z.modulo m d =? 0)%Z then Some (m, d) else None
  | _ => None
  end.

(** jsonschema's ["type": "number"], as a fraction [num / den], [den > 0]. *)
Definition json_number_value (v : json) : option (Z * Z) :=
  match v with
  | JInt z => Some (z, 1%Z)
  | JFloat m e => Some (m, (10 ^ Z.of_nat e)%Z)
  | _ => None
  end.

(** [lo <= num/den <= hi] for a positive [den]. *)
Definition frac_in_range (lo hi : Z) (nd : Z * Z) : bool :=
  let (num, den) := nd in (lo * den <=? num)%Z && (num <=? hi * den)%Z.

(** A property of an object, validated only when it is present. *)
Definition if_present (kvs : list (string * json)) (k : string) (p : json -> bool)
  : bool :=
  match dict_get kvs k with Some v => p v | None => true end.

Definition is_json_string (v : json) : option string :=
  match v with JStr s => Some s | _ => None end.

Definition valid_model_params (v : json) : bool :=
  match v with
  | JObj mp =>
      if_present mp "max_tokens" (fun x =>
        match json_integer_value x with
        | Some nd => frac_in_range 1 100000 nd | None => false end) &&
      if_present mp "temperature" (fun x =>
        match json_number_value x with
        | Some nd => frac_in_range 0 1 nd | None => false end) &&
      if_present mp "top_p" (fun x =>
        match json_number_value x with
        | Some nd => frac_in_range 0 1 nd | None => false end)
  | _ => false
  end.

(** [validate(instance=config, schema=PROMPT_CONFIG_SCHEMA)] succeeds.
    jsonschema's ["pattern"] uses [re.search]; with a leading [^] and no
    MULTILINE this is [re.match], with Python's [$]. *)
Definition schema_valid (config : json) : bool :=
  match config with
  | JObj kvs =>
      if_present kvs "template" (fun v =>
        match is_json_string v with
        | Some s => py_match_anchored template_pattern_full s | None => false end) &&
      if_present kvs "output_name" (fun v =>
        match is_json_string v with
        | Some s => py_match_anchored output_name_pattern_full s | None => false end) &&
      if_present kvs "output_format" (fun v =>
        match is_json_string v with
        | Some s => String.eqb s "html" || String.eqb s "md" | None => false end) &&
      if_present kvs "model_id" (fun v =>
        match is_json_string v with Some _ => true | None => false end) &&
      if_present kvs "model_params" valid_model_params &&
      if_present kvs "variables" (fun v =>
        match v with JObj _ => true | _ => false end) &&
      (* "required" *)
      match dict_get kvs "template", dict_get kvs "output_name",
            dict_get kvs "variables" with
      | Some _, Some _, Some _ => true
      | _, _, _ => false
      end
  | _ => false
  end.

Definition MAX_VARIABLES : nat := 50.

(** [len(config.get('variables', {}))], on a configuration the schema has
    accepted (so [variables] is present and is an object). *)
Definition variables_len (config : json) : nat :=
  match config with
  | JObj kvs =>
      match dict_get kvs "variables" with
      | Some (JObj vs) => dict_len vs
      | _ => 0
      end
  | _ => 0
  end.

Section ConfigLoading.
Variable resolve : string -> option string.
Variable read_file : string -> option string.
(** [json.load]: the parsed value, or [None] on a [JSONDecodeError]. *)
Variable parse_json : string -> option json.

(** PromptProcessor.load_config, with [prompts_dir] the resolved
    [PROMPTS_DIR]. *)
Definition load_config (prompts_dir config_path : string)
  : list event * result json :=
  match _validate_path resolve config_path prompts_dir with
  | Err e => ([], Err e)
  | Ok validated_path =>
      match read_file validated_path with
      | None => ([ReadFile validated_path], Err (FileNotFound config_path))
      | Some text =>
          match parse_json text with
          | None => ([ReadFile validated_path], Err InvalidJSON)
          | Some config =>
              if negb (schema_valid config)
              then ([ReadFile validated_path], Err InvalidConfiguration)
              else if Nat.ltb MAX_VARIABLES (variables_len config)
              then ([ReadFile validated_path], Err (TooManyVariables (variables_len config)))
              else ([ReadFile validated_path], Ok config)
          end
      end
  end.
End ConfigLoading.

(** ** Model invocation (PromptProcessor.invoke_bedrock) *)

(** [d.get(k, default)] on a dict. *)
Definition get_default (d : list (string * json)) (k : string) (default : json) : json :=
  match dict_get d k with Some v => v | None => default end.

(** Python subscripting of a parsed response: [v[k]] with a string key on
    a dict, [v[i]] with an int index on a list; [None] for the KeyError,
    IndexError or TypeError it raises otherwise. *)
Inductive subscript := Key (k : string) | Index (i : nat).

Fixpoint subscripts (v : json) (path : list subscript) : option json :=
  match path with
  | [] => Some v
  | Key k :: rest =>
      match v with JObj kvs => match dict_get kvs k with
                               | Some w => subscripts w rest | None => None end
                 | _ => None end
  | Index i :: rest =>
      match v with JArr l => match nth_error l i with
                             | Some w => subscripts w rest | None => None end
              | _ => None end
  end.

Definition DEFAULT_MODEL_ID : string := "anthropic.claude-3-sonnet-20240229-v1:0".

Definition DEFAULT_MODEL_PARAMS : list (string * json) :=
  [("max_tokens", JInt 2048); ("temperature", JFloat 7 1); ("top_p", JFloat 9 1)].

(** Family A request body. *)
Definition claude_body (prompt : string) (model_params : list (string * json)) : json :=
  JObj [("anthropic_version", JStr "bedrock-2023-05-31");
        ("max_tokens", get_default model_params "max_tokens" (JInt 2048));
        ("temperature", get_default model_params "temperature" (JFloat 7 1));
        ("top_p", get_default model_params "top_p" (JFloat 9 1));
        ("messages", JArr [JObj [("role", JStr "user"); ("content", JStr prompt)]])].

(** Family B request body. *)
Definition titan_body (prompt : string) (model_params : list (string * json)) : json :=
  JObj [("inputText", JStr prompt);
        ("textGenerationConfig",
          JObj [("maxTokenCount", get_default model_params "max_tokens" (JInt 2048));
                ("temperature", get_default model_params "temperature" (JFloat 7 1));
                ("topP", get_default model_params "top_p" (JFloat 9 1))])].

(** [response_body['content'][0]['text']] *)
Definition claude_text_path : list subscript := [Key "content"; Index 0; Key "text"].
(** [response_body['results'][0]['outputText']] *)
Definition titan_text_path : list subscript := [Key "results"; Index 0; Key "outputText"].

Definition extract (resp : json) (path : list subscript) : result json :=
  match subscripts resp path with
  | Some v => Ok v
  | None => Err ResponseShapeError
  end.

Section Bedrock.
(** [bedrock_runtime.invoke_model(...)] followed by
    [json.loads(response['body'].read())]: the parsed response body, or
    the error code and message of a ClientError / BotoCoreError. *)
Variable invoke_model : string -> json -> (string * string) + json.

Definition invoke_bedrock (prompt : string) (model_id : option string)
  (model_params : option (list (string * json))) : list event * result json :=
  let model_id := match model_id with Some m => m | None => DEFAULT_MODEL_ID end in
  let model_params :=
    match model_params with Some p => p | None => DEFAULT_MODEL_PARAMS end in
  let body :=
    if contains "anthropic.claude" model_id then Some (claude_body prompt model_params)
    else if contains "amazon.titan" model_id then Some (titan_body prompt model_params)
    else None in
  match body with
  | None => ([], Err (UnsupportedModel model_id))
  | Some body =>
      let trace := [InvokeModel model_id body] in
      match invoke_model model_id body with
      | inl (code, msg) => (trace, Err (BedrockFailed code msg))
      | inr response_body =>
          (trace,
           if contains "anthropic.claude" model_id then extract response_body claude_text_path
           else if contains "amazon.titan" model_id then extract response_body titan_text_path
           else Ok response_body (* str(response_body); unreachable *))
      end
  end.
End Bedrock.

(** ** Test fixtures (tests/conftest.py, tests/unit/test_process_prompt.py) *)

(** [{f"var_{i}": f"value_{i}" for i in range(n)}], with [i] written in unary. *)
Fixpoint sample_variables (n : nat) : list (string * json) :=
  match n with
  | O => []
  | S k =>
      let i := string_of_list_ascii (repeat "i"%char k) in
      app (sample_variables k) [("var_" ++ i, JStr ("value_" ++ i))]
  end.

(** The [sample_config] fixture with the given variables. *)
Definition sample_config (vars : list (string * json)) : json :=
  JObj [("template", JStr "test_template.txt");
        ("output_name", JStr "test_output");
        ("output_format", JStr "html");
        ("model_id", JStr "anthropic.claude-3-sonnet-20240229-v1:0");
        ("model_params", JObj [("max_tokens", JInt 2048);
                               ("temperature", JFloat 7 1);
                               ("top_p", JFloat 9 1)]);
        ("variables", JObj vars)].

(** ** The pipeline (process_prompt, save_output, upload_to_s3, main) *)

(** [PromptProcessor.PROMPTS_DIR]: [Path('prompts').resolve()], run once at
    import, like [PROMPT_TEMPLATES_DIR]. *)
Definition PROMPTS_DIR (import_cwd : string) : string :=
  match resolve_lexical import_cwd "prompts" with
  | Some p => p
  | None => "prompts"
  end.

(** [str(PurePosixPath(s))]: empty and ["."] segments are dropped, a
    leading ["/"] is kept (["//"] when the path starts with exactly two),
    and the empty relative path is ["."]. *)
Definition pure_path (s : string) : string :=
  let segs := filter (fun seg => negb (String.eqb seg "" || String.eqb seg "."))
                (split_slash s) in
  let body := String.concat "/" segs in
  if startswith s "/" then
    (if startswith s "//" && negb (startswith s "///") then "//" else "/") ++ body
  else if String.eqb body "" then "." else body.

(** [Path(a) / b]: an absolute [b] replaces [a]. *)
Definition path_div (a b : string) : string :=
  if startswith b "/" then pure_path b else pure_path (a ++ "/" ++ b).

(** [c.isspace()] on an ASCII character: [\t \n \x0b \x0c \r], the
    separators [\x1c]-[\x1f], and the space. *)
Definition py_is_space (c : ascii) : bool := in_range 9 13 c || in_range 28 32 c.

(** [s.lstrip()] *)
Fixpoint lstrip_ws (s : string) : string :=
  match s with
  | EmptyString => EmptyString
  | String c r => if py_is_space c then lstrip_ws r else s
  end.

(** [s.rstrip()] *)
Fixpoint rstrip_ws (s : string) : string :=
  match s with
  | EmptyString => EmptyString
  | String c r =>
      let r' := rstrip_ws r in
      if String.eqb r' "" && py_is_space c then "" else String c r'
  end.

(** [s.strip()] *)
Definition py_strip (s : string) : string := rstrip_ws (lstrip_ws s).

(** A double quote, as a one-character string. *)
Definition dq : string := String (ascii_of_nat 34) "".

(** The f-string of save_output, before and after [{content}] (its [{{]
    and [}}] are literal braces). *)
Definition HTML_HEAD : string :=
"<!DOCTYPE html>
<html lang=" ++ dq ++ "en" ++ dq ++ ">
<head>
    <meta charset=" ++ dq ++ "UTF-8" ++ dq ++ ">
    <meta name=" ++ dq ++ "viewport" ++ dq ++ " content=" ++ dq ++ "width=device-width, initial-scale=1.0" ++ dq ++ ">
    <title>Generated Content</title>
    <style>
        body {
            font-family: -apple-system, BlinkMacSystemFont, 'Segoe UI', Roboto, Oxygen, Ubuntu, Cantarell, sans-serif;
            line-height: 1.6;
            max-width: 800px;
            margin: 0 auto;
            padding: 20px;
            color: #333;
        }
        pre {
            background: #f4f4f4;
            border: 1px solid #ddd;
            border-radius: 4px;
            padding: 15px;
            overflow-x: auto;
        }
        code {
            background: #f4f4f4;
            padding: 2px 6px;
            border-radius: 3px;
        }
    </style>
</head>
<body>
".

Definition HTML_TAIL : string :=
"
</body>
</html>".

(** The text save_output writes: an [html] output whose stripped text
    starts with neither ["<!DOCTYPE"] nor ["<html"] is wrapped in the page
    above; any other content is written as it is. *)
Definition output_text (content format_type : string) : string :=
  if String.eqb format_type "html"
     && negb (startswith (py_strip content) "<!DOCTYPE")
     && negb (startswith (py_strip content) "<html")
  then HTML_HEAD ++ content ++ HTML_TAIL
  else content.

(** [upload_to_s3]'s [content_type]. *)
Definition content_type_of (s3_key : string) : string :=
  if endswith s3_key ".html" then "text/html"
  else if endswith s3_key ".md" then "text/markdown"
  else "text/plain".

(** [f"https://{self.s3_bucket}.s3.{self.aws_region}.amazonaws.com/{s3_key}"] *)
Definition s3_url_of (self : PromptProcessor) (s3_key : string) : string :=
  "https://" ++ s3_bucket self ++ ".s3." ++ aws_region self ++ ".amazonaws.com/"
  ++ s3_key.

(** Exceptions of process_prompt that are not raised by the methods
    embedded above. *)
Inductive perror :=
| Raised (e : py_error)
| MissingField (field : string)   (* ValueError("Config must specify ...") *)
| NotText                         (* TypeError: the generated content is no str *)
| WriteFailed (path : string).    (* OSError of os.makedirs or open *)

(** Effects of the pipeline: those of the methods above, the file written
    by save_output, and the [upload_file] call with its [ExtraArgs]. *)
Inductive step :=
| Io (e : event)
| Write (path text : string)
| Put (local_path bucket key content_type cache_control : string).

(** A computation of the pipeline: its effects, then an exception or a value. *)
Definition M (A : Type) : Type := list step * (perror + A).

Definition ret {A : Type} (a : A) : M A := ([], inr a).
Definition raise {A : Type} (e : perror) : M A := ([], inl e).

Definition bind {A B : Type} (m : M A) (f : A -> M B) : M B :=
  match m with
  | (t1, inl e) => (t1, inl e)
  | (t1, inr a) => let (t2, r) := f a in ((t1 ++ t2)%list, r)
  end.

Notation "'let*' x ':=' m 'in' k" := (bind m (fun x => k))
  (at level 200, x name, m at level 100, k at level 200).

(** A method embedded above, called from the pipeline. *)
Definition io {A : Type} (m : list event * result A) : M A :=
  (map Io (fst m),
   match snd m with Ok a => inr a | Err e => inl (Raised e) end).

Section Output.
(** Whether [os.makedirs(os.path.dirname(output_path), exist_ok=True)] or
    [open(output_path, 'w')] raises for this path. *)
Variable write_raises : string -> bool.
(** The error code and message of the ClientError that
    [s3_client.upload_file(local_path, bucket, key, ...)] raises, if any. *)
Variable upload_error : string -> string -> string -> option (string * string).

Definition save_output (content output_path format_type : string) : M unit :=
  if write_raises output_path then raise (WriteFailed output_path)
  else ([Write output_path (output_text content format_type)], inr tt).

Definition upload_to_s3 (self : PromptProcessor) (local_path s3_key : string)
  : M string :=
  let content_type := content_type_of s3_key in
  let trace := [Put local_path (s3_bucket self) s3_key content_type "max-age=300"] in
  match upload_error local_path (s3_bucket self) s3_key with
  | Some (code, msg) => (trace, inl (Raised (S3UploadFailed code msg)))
  | None => (trace, inr (s3_url_of self s3_key))
  end.
End Output.

(** The dict process_prompt returns. *)
Record processing_result := mkResult {
  pr_config_path : string;
  pr_output_path : string;
  pr_s3_key : string;
  pr_s3_url : string;
  pr_status : string
}.

(** A configuration field the code tests with [if not field]: the string,
    when it is a non-empty str. The schema checked by load_config makes
    [template] and [output_name] strings, so no other value reaches the
    test. *)
Definition truthy_str (v : option json) : option string :=
  match v with
  | Some (JStr s) => if String.eqb s "" then None else Some s
  | _ => None
  end.

Section Pipeline.
Variable resolve : string -> option string.
Variable stat_size : string -> option nat.
Variable read_file : string -> option string.
Variable parse_json : string -> option json.
Variable invoke_model : string -> json -> (string * string) + json.
Variable write_raises : string -> bool.
Variable upload_error : string -> string -> string -> option (string * string).
(** [str(v)] of an int, float, list or dict value (what [convert] of
    string.Template substitutes for it). *)
Variable py_str_other : json -> string.
(** The resolved [PROMPTS_DIR] and [PROMPT_TEMPLATES_DIR]. *)
Variable prompts_dir templates_dir : string.

Definition py_str (v : json) : string :=
  match v with
  | JStr s => s
  | JBool true => "True"
  | JBool false => "False"
  | JNull => "None"
  | _ => py_str_other v
  end.

(** PromptProcessor.process_prompt. The [.get] defaults are those of the
    source; a field of another type than the schema allows cannot reach
    them, as load_config has validated the configuration. *)
Definition process_prompt (self : PromptProcessor) (config_path : string)
  : M processing_result :=
  let* config := io (load_config resolve read_file parse_json prompts_dir config_path) in
  let kvs := match config with JObj kvs => kvs | _ => [] end in
  let template_name := dict_get kvs "template" in
  let variables := match dict_get kvs "variables" with Some (JObj vs) => vs | _ => [] end in
  let output_name := dict_get kvs "output_name" in
  let output_format :=
    match dict_get kvs "output_format" with Some (JStr f) => f | _ => "html" end in
  let model_id := match dict_get kvs "model_id" with Some (JStr m) => Some m | _ => None end in
  let model_params :=
    match dict_get kvs "model_params" with Some (JObj mp) => mp | _ => [] end in
  match truthy_str template_name with
  | None => raise (MissingField "template")
  | Some template_name =>
  match truthy_str output_name with
  | None => raise (MissingField "output_name")
  | Some output_name =>
  let template_path := path_div "prompt_templates" template_name in
  let output_path := path_div "outputs" (output_name ++ "." ++ output_format) in
  let* template_content :=
    io (load_template resolve stat_size read_file templates_dir template_path) in
  let* rendered_prompt :=
    io ([], render_template template_content
              (map (fun kv => (fst kv, py_str (snd kv))) variables)) in
  let* generated_content :=
    io (invoke_bedrock invoke_model rendered_prompt model_id (Some model_params)) in
  (* [generated_content[:500] + ...] raises a TypeError unless it is a str *)
  match generated_content with
  | JStr generated_content =>
    let* _u := save_output write_raises generated_content output_path output_format in
    let s3_key := s3_key_of self output_name output_format in
    let* s3_url := upload_to_s3 upload_error self output_path s3_key in
    ret (mkResult config_path output_path s3_key s3_url "success")
  | _ => raise NotText
  end
  end
  end.
End Pipeline.

Section Main.
(** The world the processing of one configuration reads and changes. *)
Variable world : Type.
(** [processor.process_prompt(config_file)] in a given world. *)
Variable process : PromptProcessor -> world -> string
                   -> world * (perror + processing_result).

(** The loop of main: [results] and [failed], in order. *)
Fixpoint process_all (self : PromptProcessor) (w : world) (config_files : list string)
  : world * list processing_result * list string :=
  match config_files with
  | [] => (w, [], [])
  | config_file :: rest =>
      let (w1, r) := process self w config_file in
      match process_all self w1 rest with
      | (w2, results, failed) =>
          match r with
          | inr res => (w2, res :: results, failed)
          | inl _ => (w2, results, config_file :: failed)
          end
      end
  end.

(** main, from the positional [config_files], the [--region], [--bucket]
    and [--prefix] options (if given) and the environment: the clients
    created, the results and failed files of the loop (if it runs), and the
    exit status. [config_files] has [nargs='+']: without one, [parse_args]
    exits with status 2 before anything else. A ValueError of the
    constructor is uncaught, which exits with status 1. *)
Definition main (client_raises : string -> string -> bool)
  (env : string -> option string) (w : world) (config_files : list string)
  (region_opt bucket_opt prefix_opt : option string)
  : list event * option (list processing_result * list string) * nat :=
  let region := match region_opt with
                | Some r => r
                | None => match env "AWS_REGION" with Some r => r | None => "us-east-1" end
                end in
  let bucket := match bucket_opt with Some b => Some b | None => env "S3_BUCKET" end in
  let prefix := match prefix_opt with
                | Some p => p
                | None => match env "S3_PREFIX" with Some p => p | None => "beta/" end
                end in
  match config_files with
  | [] => ([], None, 2)
  | _ =>
  match bucket with
  | None => ([], None, 1)
  | Some bucket =>
    if String.eqb bucket "" then ([], None, 1) else
    match PromptProcessor_init client_raises region bucket prefix with
    | (evs, Err _) => (evs, None, 1)
    | (evs, Ok processor) =>
        match process_all processor w config_files with
        | (_, results, failed) =>
            (evs, Some (results, failed), match failed with [] => 0 | _ => 1 end)
        end
    end
  end
  end.
End Main.

(** ** Auxiliary definitions for the proofs *)

(** A string that ends in exactly one ['/']. *)
Definition ends_with_single_slash (s : string) : Prop :=
  exists u, s = u ++ "/" /\ last_char u <> Some "/"%char.

Definition no_dollar (s : string) : bool :=
  all_chars (fun c => negb (Ascii.eqb c "$"%char)) s.

(** The characters of a string, each as copied text. *)
Fixpoint lits (s : string) : list tok :=
  match s with
  | EmptyString => []
  | String c r => TLit c :: lits r
  end.

(** The template text a token was cut from. *)
Definition tok_text (t : tok) : string :=
  match t with
  | TLit c => String c ""
  | TEsc => "$$"
  | TNamed x => "$" ++ x
  | TBraced x => "${" ++ x ++ "}"
  | TInvalid _ => "$"
  end.

Fixpoint unscan (ts : list tok) : string :=
  match ts with
  | [] => ""
  | t :: ts' => tok_text t ++ unscan ts'
  end.

(** Whether [convert] succeeds on a token. *)
Definition tok_ok (m : list (string * string)) (t : tok) : bool :=
  match t with
  | TLit _ | TEsc => true
  | TNamed x | TBraced x => match dict_get m x with Some _ => true | None => false end
  | TInvalid _ => false
  end.

(** The error [convert] raises on a token it fails on. *)
Definition tok_error (t : tok) : py_error :=
  match t with
  | TNamed x | TBraced x => MissingVariable x
  | TInvalid p => InvalidPlaceholder p
  | _ => InvalidPlaceholder 0
  end.

(** The template with every placeholder replaced by its value and every
    [$$] by [$], all other characters kept. *)
Fixpoint fill (m : list (string * string)) (ts : list tok) : string :=
  match ts with
  | [] => ""
  | t :: ts' =>
    match t with
    | TLit c => String c ""
    | TEsc => "$"
    | TNamed x | TBraced x => match dict_get m x with Some v => v | None => "" end
    | TInvalid _ => ""
    end ++ fill m ts'
  end.

(** A string without ['.']. *)
Definition no_dot (s : string) : bool :=
  all_chars (fun c => negb (Ascii.eqb c "."%char)) s.

(** A step that is a read, a stat, a model call or a client creation. *)
Definition is_io (s : step) : bool := match s with Io _ => true | _ => false end.

(** A model call. *)
Definition is_invoke (s : step) : bool :=
  match s with Io (InvokeModel _ _) => true | _ => false end.

Definition is_invoke_event (e : event) : bool :=
  match e with InvokeModel _ _ => true | _ => false end.

(** The errors process_prompt raises before the model is invoked. *)
Definition before_model_error (e : perror) : bool :=
  match e with
  | Raised (BedrockFailed _ _) | Raised ResponseShapeError | NotText | WriteFailed _
  | Raised (S3UploadFailed _ _) => false
  | _ => true
  end.

(** Case on the dict lookups left in the goal and its hypotheses. *)
Ltac case_lookup :=
  repeat match goal with
  | |- context [dict_get ?m ?x] => destruct (dict_get m x)
  | H : context [dict_get ?m ?x] |- _ => destruct (dict_get m x)
  end.

Definition no_slash (s : string) : bool :=
  all_chars (fun c => negb (Ascii.eqb c "/"%char)) s.

(** A directory name as normalisation leaves it on the stack. *)
Definition wf_seg (seg : string) : Prop :=
  seg <> "" /\ seg <> "." /\ seg <> ".." /\ no_slash seg = true.

(** Total length of the [/name] pieces. *)
Fixpoint slen (segs : list string) : nat :=
  match segs with
  | [] => 0
  | seg :: rest => S (String.length seg + slen rest)
  end.

(** ** Lemmas: strings *)

Lemma last_char_cons (c : ascii) (r : string) :
  last_char (String c r) = match r with EmptyString => Some c | _ => last_char r end.
Proof.
  unfold last_char. destruct r as [|d r]; simpl; [reflexivity|].
  rewrite Nat.sub_0_r. reflexivity.
Qed.

Lemma rstrip_slash_last (s : string) : last_char (rstrip_slash s) <> Some "/"%char.
Proof.
  induction s as [|c r IH]; simpl; [discriminate|].
  destruct (String.eqb (rstrip_slash r) "") eqn:E.
  - apply String.eqb_eq in E. rewrite E.
    destruct (Ascii.eqb c "/") eqn:C; simpl.
    + discriminate.
    + intros H. injection H as ->. discriminate C.
  - simpl. rewrite last_char_cons.
    destruct (rstrip_slash r) eqn:R; [discriminate E | exact IH].
Qed.

Lemma region_allowed_In (r : string) : region_allowed r = true <-> In r ALLOWED_REGIONS.
Proof.
  unfold region_allowed. rewrite existsb_exists. split.
  - intros [x [Hin Heq]]. apply String.eqb_eq in Heq. subst. exact Hin.
  - intros Hin. exists r. split; [exact Hin | apply String.eqb_refl].
Qed.

(** ** Claims: S3 names and the constructor *)

(** C6 (code_bug). The bucket-name check uses [re.match] with a pattern
    ending in [$], which also matches before a final newline: ["abc\n"] is
    accepted although it is not in the language of the pattern as a whole. *)
Theorem bucket_name_trailing_newline_accepted :
  _validate_s3_bucket_name ("abc" ++ String nl "") = true /\
  isValidBucketName_spec ("abc" ++ String nl "") = false.
Proof. split; vm_compute; reflexivity. Qed.

(** C7 (code_bug). The same [$] anchor in the prefix check accepts
    ["beta/\n"], which is not made of [a-zA-Z0-9/_-] characters only. *)
Theorem prefix_trailing_newline_accepted :
  _validate_s3_prefix ("beta/" ++ String nl "") = true /\
  isValidPrefix_spec ("beta/" ++ String nl "") = false.
Proof. split; vm_compute; reflexivity. Qed.

(** C9. The allowlist has ten regions; a region outside it makes
    [__init__] raise before any client is created, and construction succeeds
    only for a region in it. *)
Theorem init_region_allowlist :
  List.length ALLOWED_REGIONS = 10 /\ NoDup ALLOWED_REGIONS /\
  forall (raises : string -> string -> bool) (r b p : string),
    (~ In r ALLOWED_REGIONS ->
       PromptProcessor_init raises r b p = ([], Err (InvalidRegion r))) /\
    (forall evs self, PromptProcessor_init raises r b p = (evs, Ok self) ->
       In r ALLOWED_REGIONS).
Proof.
  split; [reflexivity|]. split.
  { unfold ALLOWED_REGIONS.
    repeat constructor; simpl; intuition discriminate. }
  intros raises r b p. split.
  - intros Hnot. unfold PromptProcessor_init.
    destruct (region_allowed r) eqn:E.
    + apply region_allowed_In in E. contradiction.
    + reflexivity.
  - intros evs self H. unfold PromptProcessor_init in H.
    destruct (region_allowed r) eqn:E; [apply region_allowed_In; exact E|].
    discriminate H.
Qed.

(** C10. After a successful construction the stored prefix is the input
    prefix with its trailing slashes stripped plus one ['/']: it ends in
    exactly one ['/']. The empty prefix is valid and is stored as ["/"], so
    every object key computed from it starts with ['/']. *)
Theorem init_prefix_single_trailing_slash :
  _validate_s3_prefix "" = true /\
  forall (raises : string -> string -> bool) (r b p : string) evs self,
    PromptProcessor_init raises r b p = (evs, Ok self) ->
    s3_prefix self = rstrip_slash p ++ "/" /\
    ends_with_single_slash (s3_prefix self) /\
    (forall output_name output_format,
       s3_key_of self output_name output_format
       = s3_prefix self ++ "outputs/" ++ output_name ++ "." ++ output_format) /\
    (p = "" -> s3_prefix self = "/" /\
       forall output_name output_format,
         startswith (s3_key_of self output_name output_format) "/" = true).
Proof.
  split; [reflexivity|].
  intros raises r b p evs self H.
  unfold PromptProcessor_init in H.
  destruct (region_allowed r); [|discriminate H].
  destruct (_validate_s3_bucket_name b); [|discriminate H].
  destruct (_validate_s3_prefix p); [|discriminate H]. simpl in H.
  destruct (raises "bedrock-runtime" r); [discriminate H|].
  destruct (raises "s3" r); [discriminate H|].
  injection H as _ <-. simpl.
  split; [reflexivity|]. split.
  { exists (rstrip_slash p). split; [reflexivity|apply rstrip_slash_last]. }
  split; [reflexivity|].
  intros ->. split; [reflexivity|]. intros on fmt. reflexivity.
Qed.

(** ** Lemmas: the template scanner *)

Lemma all_chars_app (p : ascii -> bool) (s1 s2 : string) :
  all_chars p (s1 ++ s2) = all_chars p s1 && all_chars p s2.
Proof.
  induction s1 as [|c r IH]; simpl; [reflexivity|].
  rewrite IH, andb_assoc. reflexivity.
Qed.

Lemma append_assoc_str (s1 s2 s3 : string) : (s1 ++ s2) ++ s3 = s1 ++ s2 ++ s3.
Proof. induction s1; simpl; congruence. Qed.

Lemma append_empty_r (s : string) : s ++ "" = s.
Proof. induction s; simpl; congruence. Qed.

Lemma length_app (s1 s2 : string) :
  String.length (s1 ++ s2) = String.length s1 + String.length s2.
Proof. induction s1; simpl; congruence. Qed.

Lemma take_ident_split (s id rest : string) :
  take_ident s = (id, rest) -> s = id ++ rest.
Proof.
  revert id rest. induction s as [|c r IH]; intros id rest H; simpl in H.
  - injection H as <- <-. reflexivity.
  - destruct (ident_char c).
    + destruct (take_ident r) as [id' rest'] eqn:E.
      injection H as <- <-. simpl. f_equal. apply IH. reflexivity.
    + injection H as <- <-. reflexivity.
Qed.

Lemma braced_ident_split (s id rest : string) :
  braced_ident s = Some (id, rest) -> s = id ++ String "}" rest.
Proof.
  unfold braced_ident. destruct s as [|c r]; [discriminate|].
  destruct (ident_start c); [|discriminate].
  destruct (take_ident r) as [id' rest'] eqn:E.
  apply take_ident_split in E. subst r.
  destruct rest' as [|b rest'']; [discriminate|].
  destruct (Ascii.eqb b "}") eqn:B; [|discriminate].
  apply Ascii.eqb_eq in B. subst b.
  intros H. injection H as <- <-. reflexivity.
Qed.

(** The tokens cover the template exactly, in order. *)
Lemma unscan_scan_fuel (fuel pos : nat) (s : string) :
  String.length s < fuel -> unscan (scan_fuel fuel pos s) = s.
Proof.
  revert pos s. induction fuel as [|f IH]; intros pos s Hlen; [lia|].
  destruct s as [|c r]; simpl; [reflexivity|].
  simpl in Hlen.
  destruct (Ascii.eqb c "$") eqn:C.
  - apply Ascii.eqb_eq in C. subst c.
    destruct r as [|d r']; [reflexivity|]. simpl in Hlen.
    destruct (Ascii.eqb d "$") eqn:D.
    { apply Ascii.eqb_eq in D. subst d. simpl. rewrite IH; [reflexivity|lia]. }
    destruct (ident_start d) eqn:I.
    { destruct (take_ident r') as [id rest] eqn:E.
      apply take_ident_split in E. subst r'. rewrite length_app in Hlen.
      simpl. rewrite IH; [reflexivity|lia]. }
    destruct (Ascii.eqb d "{") eqn:B.
    { apply Ascii.eqb_eq in B. subst d.
      destruct (braced_ident r') as [[id rest]|] eqn:E.
      - apply braced_ident_split in E. subst r'.
        rewrite length_app in Hlen. simpl in Hlen.
        simpl. rewrite append_assoc_str. simpl. rewrite IH; [reflexivity|lia].
      - simpl. rewrite IH; [reflexivity|simpl; lia]. }
    simpl. rewrite IH; [reflexivity|simpl; lia].
  - simpl. rewrite IH; [reflexivity|lia].
Qed.

Lemma scan_fuel_no_dollar (fuel pos : nat) (s : string) :
  no_dollar s = true -> String.length s < fuel -> scan_fuel fuel pos s = lits s.
Proof.
  revert fuel pos. induction s as [|c r IH]; intros fuel pos Hd Hlen.
  - destruct fuel; reflexivity.
  - destruct fuel as [|f]; [simpl in Hlen; lia|].
    unfold no_dollar in Hd. simpl in Hd. apply andb_prop in Hd as [Hc Hr].
    apply negb_true_iff in Hc. simpl. rewrite Hc.
    f_equal. apply IH; [exact Hr|simpl in Hlen; lia].
Qed.

Lemma scan_no_dollar (s : string) : no_dollar s = true -> scan s = lits s.
Proof. intros H. apply scan_fuel_no_dollar; [exact H|lia]. Qed.

Lemma take_ident_length (s id rest : string) :
  take_ident s = (id, rest) -> String.length rest <= String.length s.
Proof.
  intros H. apply take_ident_split in H. subst s. rewrite length_app. lia.
Qed.

(** No copied character is a ['$']: every ['$'] starts a match. *)
Lemma scan_fuel_lit (fuel pos : nat) (s : string) (c : ascii) :
  In (TLit c) (scan_fuel fuel pos s) -> c <> "$"%char.
Proof.
  revert pos s. induction fuel as [|f IH]; intros pos s Hin; [destruct Hin|].
  destruct s as [|c0 r]; [destruct Hin|]. simpl in Hin.
  destruct (Ascii.eqb c0 "$") eqn:C.
  - destruct r as [|d r']; [simpl in Hin; intuition discriminate|].
    destruct (Ascii.eqb d "$").
    { destruct Hin as [Hin|Hin]; [discriminate|exact (IH _ _ Hin)]. }
    destruct (ident_start d).
    { destruct (take_ident r') as [id rest].
      destruct Hin as [Hin|Hin]; [discriminate|exact (IH _ _ Hin)]. }
    destruct (Ascii.eqb d "{").
    { destruct (braced_ident r') as [[id rest]|];
      (destruct Hin as [Hin|Hin]; [discriminate|exact (IH _ _ Hin)]). }
    destruct Hin as [Hin|Hin]; [discriminate|exact (IH _ _ Hin)].
  - destruct Hin as [Hin|Hin].
    + injection Hin as <-. intros E. subst c0. discriminate C.
    + exact (IH _ _ Hin).
Qed.

(** ** Lemmas: substitution *)

Lemma substitute_ok (m : list (string * string)) (ts : list tok) :
  forallb (tok_ok m) ts = true -> substitute m ts = Ok (fill m ts).
Proof.
  induction ts as [|t ts IH]; simpl; [reflexivity|].
  intros H. apply andb_prop in H as [Ht Hts]. rewrite (IH Hts).
  destruct t; simpl in *; try reflexivity; case_lookup; congruence.
Qed.

Lemma substitute_first_failure (m : list (string * string)) (pre post : list tok)
  (bad : tok) :
  forallb (tok_ok m) pre = true -> tok_ok m bad = false ->
  substitute m (pre ++ bad :: post)%list = Err (tok_error bad).
Proof.
  induction pre as [|t pre IH]; simpl; intros Hpre Hbad.
  - destruct bad; simpl in *; try discriminate; try reflexivity;
      case_lookup; congruence.
  - apply andb_prop in Hpre as [Ht Hpre]. rewrite (IH Hpre Hbad).
    destruct t; simpl in *; try reflexivity; try discriminate;
      case_lookup; congruence.
Qed.

Lemma substitute_fails (m : list (string * string)) (ts : list tok) (bad : tok) :
  In bad ts -> tok_ok m bad = false -> exists e, substitute m ts = Err e.
Proof.
  induction ts as [|t ts IH]; intros Hin Hbad; [destruct Hin|].
  destruct Hin as [Heq|Hin].
  - subst t. exists (tok_error bad).
    apply (substitute_first_failure m [] ts bad); [reflexivity|exact Hbad].
  - destruct (IH Hin Hbad) as [e He]. simpl.
    destruct t; simpl; rewrite ?He; case_lookup; rewrite ?He;
      eexists; reflexivity.
Qed.

Lemma substitute_lits (m : list (string * string)) (s : string) :
  substitute m (lits s) = Ok s.
Proof.
  induction s as [|c r IH]; simpl; [reflexivity|]. rewrite IH. reflexivity.
Qed.

Lemma fill_app (m : list (string * string)) (ts1 ts2 : list tok) :
  fill m (ts1 ++ ts2) = fill m ts1 ++ fill m ts2.
Proof.
  induction ts1 as [|t ts IH]; simpl; [reflexivity|].
  rewrite IH, append_assoc_str. reflexivity.
Qed.

Lemma fill_no_dollar (m : list (string * string)) (ts : list tok) :
  (forall c, In (TLit c) ts -> c <> "$"%char) ->
  ~ In TEsc ts ->
  (forall x v, (In (TNamed x) ts \/ In (TBraced x) ts) ->
               dict_get m x = Some v -> no_dollar v = true) ->
  no_dollar (fill m ts) = true.
Proof.
  induction ts as [|t ts IH]; intros Hlit Hesc Hval; simpl; [reflexivity|].
  unfold no_dollar. rewrite all_chars_app. apply andb_true_intro. split.
  - destruct t; simpl.
    + rewrite andb_true_r. apply negb_true_iff.
      destruct (Ascii.eqb_spec c "$"); [|reflexivity].
      exfalso. exact (Hlit c (or_introl eq_refl) e).
    + exfalso. apply Hesc. left. reflexivity.
    + destruct (dict_get m name) eqn:E; [|reflexivity].
      exact (Hval name s (or_introl (or_introl eq_refl)) E).
    + destruct (dict_get m name) eqn:E; [|reflexivity].
      exact (Hval name s (or_intror (or_introl eq_refl)) E).
    + reflexivity.
  - apply IH.
    + intros c Hin. apply Hlit. right. exact Hin.
    + intros Hin. apply Hesc. right. exact Hin.
    + intros x v Hin E. apply (Hval x v); [|exact E].
      destruct Hin as [Hin|Hin]; [left|right]; right; exact Hin.
Qed.

Lemma fill_no_dollar_inv (m : list (string * string)) (ts : list tok) :
  no_dollar (fill m ts) = true ->
  ~ In TEsc ts /\
  (forall x v, (In (TNamed x) ts \/ In (TBraced x) ts) ->
               dict_get m x = Some v -> no_dollar v = true).
Proof.
  induction ts as [|t ts IH]; intros H; simpl in H.
  - split; [intros []|intros x v [[]|[]]].
  - unfold no_dollar in H. rewrite all_chars_app in H.
    apply andb_prop in H as [Ht H]. destruct (IH H) as [Hesc Hval].
    split.
    + intros [E|E]; [subst t; discriminate Ht|exact (Hesc E)].
    + intros x v [[E|E]|[E|E]] Hx.
      * subst t. rewrite Hx in Ht. exact Ht.
      * exact (Hval x v (or_introl E) Hx).
      * subst t. rewrite Hx in Ht. exact Ht.
      * exact (Hval x v (or_intror E) Hx).
Qed.

(** ** Claims: rendering *)

(** C2 (counterexample). The template ["Hello $ $company!"] has the
    placeholder [$company] with no key, but the lone ['$'] before it is an
    invalid placeholder: render fails with the invalid-placeholder
    [ValueError], not with a missing-variable error. *)
Lemma render_invalid_before_missing :
  In (TNamed "company") (scan "Hello $ $company!") /\
  dict_get [("name", "John")] "company" = None /\
  render_template "Hello $ $company!" [("name", "John")] = Err (InvalidPlaceholder 6).
Proof. vm_compute. split; [right; right; right; right; right; right; right; right; left; reflexivity|]. split; reflexivity. Qed.

(** C2 (as amended). A template with a placeholder that has no key never
    renders. The scan fails at the first token, left to right, that is an
    unresolved placeholder or an invalid ['$']. A placeholder there gives
    a missing-variable error naming it. An invalid ['$'] there gives an
    invalid-placeholder error. The spec's example fails naming [company]. *)
Theorem render_missing_variable :
  (forall t m x, (In (TNamed x) (scan t) \/ In (TBraced x) (scan t)) ->
     dict_get m x = None -> exists e, render_template t m = Err e) /\
  (forall t m pre x post,
     (scan t = (pre ++ TNamed x :: post)%list \/ scan t = (pre ++ TBraced x :: post)%list) ->
     forallb (tok_ok m) pre = true -> dict_get m x = None ->
     render_template t m = Err (MissingVariable x)) /\
  (forall t m pre p post,
     scan t = (pre ++ TInvalid p :: post)%list -> forallb (tok_ok m) pre = true ->
     render_template t m = Err (InvalidPlaceholder p)) /\
  render_template "Hello $name from $company!" [("name", "John")]
  = Err (MissingVariable "company").
Proof.
  split; [|split; [|split]].
  - intros t m x Hin Hnone. unfold render_template.
    destruct Hin as [Hin|Hin];
      [apply (substitute_fails m _ (TNamed x)) | apply (substitute_fails m _ (TBraced x))];
      simpl; rewrite ?Hnone; trivial.
  - intros t m pre x post Hs Hpre Hnone. unfold render_template.
    destruct Hs as [Hs|Hs]; rewrite Hs;
      [apply (substitute_first_failure m pre post (TNamed x))
      |apply (substitute_first_failure m pre post (TBraced x))];
      simpl; rewrite ?Hnone; trivial.
  - intros t m pre p post Hs Hpre. unfold render_template. rewrite Hs.
    apply (substitute_first_failure m pre post (TInvalid p)); trivial.
  - vm_compute. reflexivity.
Qed.

(** C3 (counterexample). Values are inserted verbatim and never
    re-scanned, so ["$a"] with [a = "$b"] renders to ["$b"], which still
    has a ['$']-prefixed identifier. Also, a template whose placeholders
    all have keys fails when it holds an invalid ['$'], as in ["Cost: $5"]. *)
Lemma render_output_keeps_dollar :
  render_template "$a" [("a", "$b")] = Ok "$b" /\
  forallb (fun t => match t with TNamed _ | TBraced _ => tok_ok [("item", "tea")] t
                             | _ => true end)
          (scan "Cost: $5 for $item") = true /\
  render_template "Cost: $5 for $item" [("item", "tea")] = Err (InvalidPlaceholder 6).
Proof. vm_compute. split; [reflexivity|split; reflexivity]. Qed.

(** C3 (as amended). Assume the template has no invalid ['$'] and every
    placeholder has a key. Then the tokens cover the template exactly and
    render succeeds. It replaces each placeholder by its value, verbatim,
    and each [$$] by [$]. The result has no ['$'] exactly when the
    template has no [$$] and no substituted value contains ['$']. The spec's example
    renders to ["Hello John from TechCorp!"]. *)
Theorem render_all_resolved :
  (forall t m, forallb (tok_ok m) (scan t) = true ->
     unscan (scan t) = t /\
     render_template t m = Ok (fill m (scan t)) /\
     (no_dollar (fill m (scan t)) = true <->
      ~ In TEsc (scan t) /\
      (forall x v, (In (TNamed x) (scan t) \/ In (TBraced x) (scan t)) ->
                   dict_get m x = Some v -> no_dollar v = true))) /\
  render_template "Hello $name from $company!"
    [("name", "John"); ("company", "TechCorp")] = Ok "Hello John from TechCorp!".
Proof.
  split; [|vm_compute; reflexivity].
  intros t m Hok. split; [|split].
  - apply unscan_scan_fuel. lia.
  - apply substitute_ok. exact Hok.
  - split; [apply fill_no_dollar_inv|].
    intros [Hesc Hval]. apply fill_no_dollar; [|exact Hesc|exact Hval].
    intros c Hin. exact (scan_fuel_lit _ _ _ c Hin).
Qed.

(** C4 (counterexample). Rendering a rendered string again can change it
    or fail: ["$a"] with [a = "$b"] gives ["$b"], which then fails on the
    missing [b]; ["$$"] gives ["$"], which then is an invalid placeholder. *)
Lemma render_not_idempotent :
  render_template "$a" [("a", "$b")] = Ok "$b" /\
  render_template "$b" [("a", "$b")] = Err (MissingVariable "b") /\
  render_template "$$" [] = Ok "$" /\
  render_template "$" [] = Err (InvalidPlaceholder 0).
Proof. vm_compute. repeat split. Qed.

(** C4 (as amended). A successful render's output that contains no ['$']
    renders to itself with every variable map. *)
Theorem render_idempotent_without_dollar :
  forall t m p, render_template t m = Ok p -> no_dollar p = true ->
  forall m', render_template p m' = Ok p.
Proof.
  intros t m p _ Hd m'. unfold render_template.
  rewrite scan_no_dollar by exact Hd. apply substitute_lits.
Qed.

(** ** Lemmas: lexical path resolution *)

Lemma split_slash_nonnil (s : string) : split_slash s <> [].
Proof.
  destruct s as [|c r]; simpl; [discriminate|].
  destruct (Ascii.eqb c "/"); [discriminate|].
  destruct (split_slash r); discriminate.
Qed.

Lemma split_slash_app (x y : string) :
  split_slash (x ++ String "/" y) = (split_slash x ++ split_slash y)%list.
Proof.
  induction x as [|c x IH]; simpl; [reflexivity|].
  rewrite IH. destruct (Ascii.eqb c "/"); [reflexivity|].
  destruct (split_slash x) eqn:E; [exfalso; exact (split_slash_nonnil x E)|reflexivity].
Qed.

Lemma split_slash_no_slash (s seg : string) :
  In seg (split_slash s) -> no_slash seg = true.
Proof.
  revert seg. induction s as [|c r IH]; intros seg Hin; simpl in Hin.
  - destruct Hin as [<-|[]]. reflexivity.
  - destruct (Ascii.eqb c "/") eqn:C.
    + destruct Hin as [<-|Hin]; [reflexivity|exact (IH _ Hin)].
    + destruct (split_slash r) as [|seg0 rest] eqn:E.
      * destruct Hin as [<-|[]]. unfold no_slash. simpl. rewrite C. reflexivity.
      * destruct Hin as [<-|Hin].
        -- unfold no_slash. simpl. rewrite C. apply (IH seg0). left. reflexivity.
        -- apply IH. right. exact Hin.
Qed.

Lemma fold_normalize_wf (segs stack : list string) :
  (forall seg, In seg segs -> no_slash seg = true) -> Forall wf_seg stack ->
  Forall wf_seg (fold_left normalize_seg segs stack).
Proof.
  revert stack. induction segs as [|seg segs IH]; intros stack Hs Hst; simpl; [exact Hst|].
  apply IH; [intros x Hx; apply Hs; right; exact Hx|].
  unfold normalize_seg.
  destruct (String.eqb_spec seg ""); [exact Hst|].
  destruct (String.eqb_spec seg "."); [exact Hst|]. simpl.
  destruct (String.eqb_spec seg "..").
  - destruct Hst; simpl; [constructor|exact Hst].
  - constructor; [|exact Hst]. repeat split; try assumption.
    apply Hs. left. reflexivity.
Qed.

Lemma fold_normalize_wf_push (segs stack : list string) :
  Forall wf_seg segs -> fold_left normalize_seg segs stack = (rev segs ++ stack)%list.
Proof.
  revert stack. induction segs as [|seg segs IH]; intros stack H; simpl; [reflexivity|].
  inversion H as [|? ? [H1 [H2 [H3 _]]] Hrest]; subst.
  unfold normalize_seg at 2.
  destruct (String.eqb_spec seg ""); [contradiction|].
  destruct (String.eqb_spec seg "."); [contradiction|].
  destruct (String.eqb_spec seg ".."); [contradiction|]. simpl.
  rewrite IH by exact Hrest. rewrite <- app_assoc. reflexivity.
Qed.

Lemma split_slash_prefix (a s : string) :
  no_slash a = true ->
  split_slash (a ++ s) =
  match split_slash s with seg :: rest => (a ++ seg) :: rest | [] => [a] end.
Proof.
  induction a as [|c a IH]; intros H; simpl.
  - destruct (split_slash s) eqn:E; [exfalso; exact (split_slash_nonnil s E)|reflexivity].
  - unfold no_slash in H. simpl in H. apply andb_prop in H as [Hc Ha].
    apply negb_true_iff in Hc. rewrite Hc, (IH Ha).
    destruct (split_slash s); reflexivity.
Qed.

Lemma split_slash_concat_segs (segs : list string) :
  segs <> [] -> Forall (fun seg => no_slash seg = true) segs ->
  split_slash (concat_segs segs) = "" :: segs.
Proof.
  induction segs as [|a segs IH]; intros Hne H; [contradiction|].
  inversion H as [|? ? Ha Hrest]; subst. simpl.
  rewrite split_slash_prefix by exact Ha.
  destruct segs as [|b segs'].
  - simpl. rewrite append_empty_r. reflexivity.
  - rewrite IH by (discriminate || exact Hrest). rewrite append_empty_r. reflexivity.
Qed.

(** Resolving a resolved path gives it back. *)
Lemma resolve_lexical_normal (cwd : string) (stack : list string) :
  Forall wf_seg stack ->
  resolve_lexical cwd (join_abs (rev stack)) = Some (join_abs (rev stack)).
Proof.
  intros Hwf. unfold resolve_lexical.
  destruct (rev stack) as [|a l] eqn:R.
  - reflexivity.
  - assert (Hstart : startswith (join_abs (a :: l)) "/" = true).
    { unfold startswith, join_abs. simpl.
      destruct (ascii_dec "/" "/") as [_|n]; [|contradiction n; reflexivity].
      destruct (a ++ concat_segs l); reflexivity. }
    rewrite Hstart. f_equal. f_equal.
    assert (Hwf' : Forall wf_seg (a :: l)).
    { rewrite <- R. apply Forall_rev. exact Hwf. }
    replace (split_slash (join_abs (a :: l))) with ("" :: a :: l).
    2:{ symmetry. apply split_slash_concat_segs; [discriminate|].
        eapply Forall_impl; [|exact Hwf']. intros x [_ [_ [_ Hx]]]. exact Hx. }
    change (fold_left normalize_seg ("" :: a :: l) [])
      with (fold_left normalize_seg (a :: l) []).
    rewrite fold_normalize_wf_push by exact Hwf'.
    rewrite app_nil_r, rev_involutive. reflexivity.
Qed.

Lemma concat_segs_length (segs : list string) :
  String.length (concat_segs segs) = slen segs.
Proof.
  induction segs as [|a l IH]; simpl; [reflexivity|].
  rewrite length_app, IH. reflexivity.
Qed.

Lemma slen_app (l1 l2 : list string) : slen (l1 ++ l2) = slen l1 + slen l2.
Proof. induction l1; simpl; lia. Qed.

Lemma slen_rev (l : list string) : slen (rev l) = slen l.
Proof. induction l; simpl; [reflexivity|]. rewrite slen_app. simpl. lia. Qed.

Lemma slen_tl (l : list string) : slen (tl l) <= slen l.
Proof. destruct l; simpl; lia. Qed.

Lemma prefix_length (s1 s2 : string) :
  String.prefix s1 s2 = true -> String.length s1 <= String.length s2.
Proof.
  revert s2. induction s1 as [|a s1 IH]; intros s2 H; simpl; [lia|].
  destruct s2 as [|b s2]; [discriminate|]. simpl in H.
  destruct (ascii_dec a b); [|discriminate]. simpl. apply le_n_S, IH, H.
Qed.

Lemma join_abs_rev_cons_length (x : string) (stack : list string) :
  String.length (join_abs (rev (x :: stack))) = slen stack + S (String.length x).
Proof.
  simpl. destruct (rev stack ++ [x])%list eqn:E.
  - destruct (rev stack); discriminate E.
  - unfold join_abs. rewrite <- E, concat_segs_length, slen_app, slen_rev. simpl. lia.
Qed.

Lemma resolve_lexical_relative (cwd p : string) :
  startswith p "/" = false ->
  resolve_lexical cwd p =
  Some (join_abs (rev (fold_left normalize_seg (split_slash p)
                        (fold_left normalize_seg (split_slash cwd) [])))).
Proof.
  intros H. unfold resolve_lexical. rewrite H.
  change ("/" ++ p) with (String "/" p).
  rewrite split_slash_app, fold_left_app. reflexivity.
Qed.

Lemma cwd_stack_wf (cwd : string) :
  Forall wf_seg (fold_left normalize_seg (split_slash cwd) []).
Proof.
  apply fold_normalize_wf; [|constructor].
  intros seg Hin. exact (split_slash_no_slash cwd seg Hin).
Qed.

(** With the templates root resolved in the same working directory, the
    candidate ["../../etc/passwd"] is rejected by [_validate_path]. *)
Lemma etc_passwd_outside_templates (cwd : string) :
  _validate_path (resolve_lexical cwd) "../../etc/passwd" (PROMPT_TEMPLATES_DIR cwd)
  = Err (InvalidPath "../../etc/passwd").
Proof.
  pose proof (cwd_stack_wf cwd) as HN.
  set (N := fold_left normalize_seg (split_slash cwd) []) in *.
  unfold _validate_path.
  rewrite resolve_lexical_relative by reflexivity. fold N.
  assert (Hbase : PROMPT_TEMPLATES_DIR cwd = join_abs (rev ("prompt_templates" :: N))).
  { unfold PROMPT_TEMPLATES_DIR. rewrite resolve_lexical_relative by reflexivity.
    reflexivity. }
  rewrite Hbase, resolve_lexical_normal.
  2:{ constructor; [|exact HN].
      repeat split; try discriminate. }
  change (fold_left normalize_seg (split_slash "../../etc/passwd") N)
    with ("passwd" :: "etc" :: tl (tl N)).
  destruct (startswith _ _) eqn:E; [|reflexivity].
  exfalso. apply prefix_length in E.
  rewrite !join_abs_rev_cons_length in E. simpl in E.
  pose proof (slen_tl N). pose proof (slen_tl (tl N)). lia.
Qed.

(** ** Claims: path confinement and configuration loading *)

(** C1 (counterexample). [PROMPT_TEMPLATES_DIR] is resolved once, at
    import. A process imported in [/srv/app] that later works in
    [/srv/app/prompt_templates/a/b] resolves ["../../etc/passwd"] to
    [/srv/app/prompt_templates/etc/passwd], inside the templates root: the
    path is accepted, and the file is stat'ed and read. *)
Lemma etc_passwd_read_after_chdir :
  load_template (resolve_lexical "/srv/app/prompt_templates/a/b")
    (fun _ => Some 10) (fun _ => Some "root:x")
    (PROMPT_TEMPLATES_DIR "/srv/app") "../../etc/passwd"
  = ([StatFile "/srv/app/prompt_templates/etc/passwd";
      ReadFile "/srv/app/prompt_templates/etc/passwd"], Ok "root:x").
Proof. vm_compute. reflexivity. Qed.

(** C1 (as amended). [_validate_path] succeeds, with the resolved
    candidate, exactly when both paths resolve and the resolved candidate's
    string starts with the resolved base's. Otherwise it raises the path
    error, also when resolution raises. Resolving paths without symbolic
    links, with the templates root resolved in the working directory of the
    call, [load_template "../../etc/passwd"] is rejected before the size
    of any file is queried and before any file is read: only the path
    resolution, with the stat calls it makes itself, comes first. *)
Theorem validate_path_prefix_check :
  (forall (resolve : string -> option string) c b rc rb,
     resolve c = Some rc -> resolve b = Some rb ->
     _validate_path resolve c b
     = if startswith rc rb then Ok rc else Err (InvalidPath c)) /\
  (forall (resolve : string -> option string) c b,
     (resolve c = None \/ resolve b = None) ->
     _validate_path resolve c b = Err (InvalidPath c)) /\
  (forall cwd stat_size read_file,
     load_template (resolve_lexical cwd) stat_size read_file
       (PROMPT_TEMPLATES_DIR cwd) "../../etc/passwd"
     = ([], Err (InvalidPath "../../etc/passwd"))).
Proof.
  split; [|split].
  - intros resolve c b rc rb Hc Hb. unfold _validate_path. rewrite Hc, Hb.
    destruct (startswith rc rb); reflexivity.
  - intros resolve c b [H|H]; unfold _validate_path; rewrite H;
      [reflexivity|destruct (resolve c); reflexivity].
  - intros cwd stat_size read_file. unfold load_template.
    rewrite etc_passwd_outside_templates. reflexivity.
Qed.

(** C8 (counterexample). The schema is checked before the variable count:
    a configuration with 51 variables and no [template] field fails with the
    schema error, not the limit error. *)
Lemma load_config_schema_before_limit :
  let config := JObj [("output_name", JStr "test_output");
                      ("variables", JObj (sample_variables 51))] in
  variables_len config = 51 /\
  load_config (resolve_lexical "/srv/app") (fun _ => Some "{...}")
    (fun _ => Some config) "/srv/app/prompts" "prompts/test.json"
  = ([ReadFile "/srv/app/prompts/test.json"], Err InvalidConfiguration).
Proof. vm_compute. split; reflexivity. Qed.

(** C8 (as amended). Take a configuration whose path is inside the
    prompts root, whose file is read and parsed, and which the schema
    accepts. It is rejected with the limit error when [variables] has more
    than 50 entries. Otherwise it is returned unchanged. Such a
    configuration that the schema rejects fails with the schema error,
    whatever its variable count. The fixture
    configuration with 51 variables passes the schema and is rejected. *)
Theorem load_config_variable_limit :
  (forall resolve read_file parse_json prompts_dir config_path p text config,
     _validate_path resolve config_path prompts_dir = Ok p ->
     read_file p = Some text -> parse_json text = Some config ->
     schema_valid config = true ->
     (MAX_VARIABLES < variables_len config ->
        load_config resolve read_file parse_json prompts_dir config_path
        = ([ReadFile p], Err (TooManyVariables (variables_len config)))) /\
     (variables_len config <= MAX_VARIABLES ->
        load_config resolve read_file parse_json prompts_dir config_path
        = ([ReadFile p], Ok config))) /\
  (forall resolve read_file parse_json prompts_dir config_path p text config,
     _validate_path resolve config_path prompts_dir = Ok p ->
     read_file p = Some text -> parse_json text = Some config ->
     schema_valid config = false ->
     load_config resolve read_file parse_json prompts_dir config_path
     = ([ReadFile p], Err InvalidConfiguration)) /\
  MAX_VARIABLES = 50 /\
  schema_valid (sample_config (sample_variables 51)) = true /\
  load_config (resolve_lexical "/srv/app") (fun _ => Some "{...}")
    (fun _ => Some (sample_config (sample_variables 51)))
    "/srv/app/prompts" "prompts/test.json"
  = ([ReadFile "/srv/app/prompts/test.json"], Err (TooManyVariables 51)).
Proof.
  split; [|split; [|split; [reflexivity|split; vm_compute; reflexivity]]].
  2:{ intros resolve read_file parse_json prompts_dir config_path p text config
        Hp Hr Hj Hs.
      unfold load_config. rewrite Hp, Hr, Hj, Hs. reflexivity. }
  intros resolve read_file parse_json prompts_dir config_path p text config
    Hp Hr Hj Hs.
  unfold load_config. rewrite Hp, Hr, Hj, Hs. simpl. split.
  - intros Hlt. apply Nat.ltb_lt in Hlt. rewrite Hlt. reflexivity.
  - intros Hle. destruct (Nat.ltb_spec MAX_VARIABLES (variables_len config));
      [lia|reflexivity].
Qed.

(** ** Claims: model invocation *)

(** C5. Let [m] be the model id, with the default model id when none is
    given. When [m] contains neither ["anthropic.claude"] nor
    ["amazon.titan"], invoke fails with the unsupported-model error and
    makes no request. When [m] contains ["anthropic.claude"], the one
    request carries the family-A body and the text is taken from
    [content[0].text]. When [m] contains only ["amazon.titan"], the request
    carries the family-B body and the text is taken from
    [results[0].outputText]. *)
Theorem invoke_model_family_dispatch :
  forall (invoke_model : string -> json -> (string * string) + json)
         (prompt : string) (model_id : option string)
         (model_params : option (list (string * json))),
  let m := match model_id with Some x => x | None => DEFAULT_MODEL_ID end in
  let mp := match model_params with Some p => p | None => DEFAULT_MODEL_PARAMS end in
  (contains "anthropic.claude" m = false -> contains "amazon.titan" m = false ->
     invoke_bedrock invoke_model prompt model_id model_params
     = ([], Err (UnsupportedModel m))) /\
  (contains "anthropic.claude" m = true -> forall response_body,
     invoke_model m (claude_body prompt mp) = inr response_body ->
     invoke_bedrock invoke_model prompt model_id model_params
     = ([InvokeModel m (claude_body prompt mp)],
        match subscripts response_body [Key "content"; Index 0; Key "text"] with
        | Some text => Ok text
        | None => Err ResponseShapeError
        end)) /\
  (contains "anthropic.claude" m = false -> contains "amazon.titan" m = true ->
   forall response_body,
     invoke_model m (titan_body prompt mp) = inr response_body ->
     invoke_bedrock invoke_model prompt model_id model_params
     = ([InvokeModel m (titan_body prompt mp)],
        match subscripts response_body [Key "results"; Index 0; Key "outputText"] with
        | Some text => Ok text
        | None => Err ResponseShapeError
        end)).
Proof.
  intros invoke_model prompt model_id model_params m mp.
  split; [|split].
  - intros Ha Hb. unfold invoke_bedrock. fold m. rewrite Ha, Hb. reflexivity.
  - intros Ha resp Hr. unfold invoke_bedrock. fold m mp. rewrite Ha, Hr.
    reflexivity.
  - intros Ha Hb resp Hr. unfold invoke_bedrock. fold m mp. rewrite Ha, Hb, Hr.
    reflexivity.
Qed.

(** ** More of the program: S3 names, paths, output, model parameters and the pipeline *)

Lemma prefix_app_l (a b : string) : String.prefix a (a ++ b) = true.
Proof.
  induction a as [|c a IH]; simpl; [destruct b; reflexivity|].
  destruct (ascii_dec c c) as [_|n]; [exact IH|contradiction n; reflexivity].
Qed.

Lemma last_char_app (x y : string) : y <> "" -> last_char (x ++ y) = last_char y.
Proof.
  intros Hy. induction x as [|c x IH]; simpl; [reflexivity|].
  rewrite last_char_cons. destruct (x ++ y) eqn:E.
  - destruct x; [simpl in E; contradiction|discriminate E].
  - exact IH.
Qed.

Lemma last_char_snoc (t : string) (c : ascii) : last_char (t ++ String c "") = Some c.
Proof. rewrite last_char_app by discriminate. reflexivity. Qed.

Lemma substring_app_l (t u : string) : substring 0 (String.length t) (t ++ u) = t.
Proof.
  induction t as [|c t IH]; simpl; [destruct u; reflexivity|]. rewrite IH. reflexivity.
Qed.

Lemma init_snoc (t : string) (c : ascii) : init (t ++ String c "") = t.
Proof.
  unfold init. rewrite length_app. simpl. rewrite Nat.add_sub. apply substring_app_l.
Qed.

Lemma last_char_split (s : string) (c : ascii) :
  last_char s = Some c -> s = init s ++ String c "".
Proof.
  induction s as [|d r IH]; intros H; [discriminate|].
  rewrite last_char_cons in H. destruct r as [|e r'].
  - injection H as ->. reflexivity.
  - specialize (IH H). unfold init in *. simpl in *.
    rewrite Nat.sub_0_r in IH. rewrite IH at 1.
    destruct (String.length r'); reflexivity.
Qed.

Lemma prefix_empty (s : string) : String.prefix "" s = true.
Proof. destruct s; reflexivity. Qed.

(** A two-character substring of a concatenation lies in one part or
    straddles the boundary. *)
Lemma contains_two_app (a b : ascii) (x y : string) :
  contains (String a (String b "")) (x ++ y) =
  contains (String a (String b "")) x || contains (String a (String b "")) y ||
  match last_char x, y with
  | Some c, String d _ => Ascii.eqb c a && Ascii.eqb d b
  | _, _ => false
  end.
Proof.
  induction x as [|c x IH].
  - simpl. destruct y; simpl; rewrite ?orb_false_r; reflexivity.
  - rewrite last_char_cons. change (String c x ++ y) with (String c (x ++ y)).
    cbn [contains]. rewrite IH. destruct x as [|e x'].
    + simpl. destruct (ascii_dec a c) as [<-|n].
      * rewrite Ascii.eqb_refl. simpl.
        destruct y as [|d y']; simpl; [rewrite ?orb_false_r; reflexivity|].
        destruct (ascii_dec b d) as [<-|n'].
        -- rewrite Ascii.eqb_refl, prefix_empty, !orb_true_r. reflexivity.
        -- destruct (Ascii.eqb_spec d b); [congruence|]. simpl.
           rewrite ?orb_false_r. reflexivity.
      * destruct (Ascii.eqb_spec c a); [congruence|]. simpl.
        destruct y; simpl; rewrite ?orb_false_r; reflexivity.
    + simpl. destruct (ascii_dec a c); [|simpl; reflexivity].
      simpl. destruct (ascii_dec b e); simpl; [|reflexivity].
      rewrite !prefix_empty. reflexivity.
Qed.

Lemma contains_two_snoc_nl (a b : ascii) (t : string) :
  Ascii.eqb nl b = false ->
  contains (String a (String b "")) (t ++ String nl "") = contains (String a (String b "")) t.
Proof.
  intros Hb. rewrite contains_two_app, Hb.
  replace (contains (String a (String b "")) (String nl "")) with false.
  2:{ simpl. destruct (ascii_dec a nl); reflexivity. }
  destruct (last_char t); rewrite ?andb_false_r, !orb_false_r; reflexivity.
Qed.

Lemma startswith_snoc_slash (t : string) (c : ascii) :
  startswith (t ++ String c "") "/" = startswith t "/" || (String.eqb t "" && Ascii.eqb c "/").
Proof.
  unfold startswith. destruct t as [|d t]; cbn [append prefix String.eqb andb orb].
  - destruct (ascii_dec "/" c) as [<-|n]; [reflexivity|].
    destruct (Ascii.eqb_spec c "/"); [congruence|reflexivity].
  - destruct (ascii_dec "/" d); rewrite ?prefix_empty; reflexivity.
Qed.

Lemma all_chars_last (p : ascii -> bool) (s : string) (c : ascii) :
  all_chars p s = true -> last_char s = Some c -> p c = true.
Proof.
  intros H L. rewrite (last_char_split s c L) in H.
  rewrite all_chars_app in H. apply andb_prop in H as [_ H]. simpl in H.
  rewrite andb_true_r in H. exact H.
Qed.

(** The bucket check accepts exactly the names of the whole-string rule and
    those names followed by one newline. *)
Theorem bucket_name_check_characterization (s : string) :
  _validate_s3_bucket_name s = true <->
  isValidBucketName_spec s = true \/
  exists t, s = t ++ String nl "" /\ isValidBucketName_spec t = true.
Proof.
  unfold _validate_s3_bucket_name, isValidBucketName_spec, py_match_anchored.
  split.
  - intros H. destruct (bucket_pattern_full s) eqn:F.
    + left. simpl in H. destruct (_ || _ || _); [discriminate|reflexivity].
    + right. simpl in H.
      destruct (last_char s) as [c|] eqn:L; [|discriminate].
      destruct (Ascii.eqb_spec c nl) as [->|]; [|discriminate]. simpl in H.
      destruct (bucket_pattern_full (init s)) eqn:F'; [|discriminate]. simpl in H.
      pose proof (last_char_split s nl L) as Hs.
      exists (init s). split; [exact Hs|]. rewrite F'. simpl.
      rewrite Hs in H. rewrite !contains_two_snoc_nl in H by reflexivity.
      destruct (_ || _ || _); [discriminate|reflexivity].
  - intros [H|[t [-> H]]].
    + apply andb_prop in H as [F B]. rewrite F. simpl.
      apply negb_true_iff in B. rewrite B. reflexivity.
    + apply andb_prop in H as [F B]. apply negb_true_iff in B.
      rewrite last_char_snoc, init_snoc, F, Ascii.eqb_refl, orb_true_r. simpl.
      rewrite !contains_two_snoc_nl by reflexivity. rewrite B. reflexivity.
Qed.

(** The prefix check accepts exactly the prefixes of the whole-string rule
    and those prefixes followed by one newline. *)
Theorem prefix_check_characterization (s : string) :
  _validate_s3_prefix s = true <->
  isValidPrefix_spec s = true \/
  exists t, s = t ++ String nl "" /\ isValidPrefix_spec t = true.
Proof.
  unfold _validate_s3_prefix, isValidPrefix_spec, py_match_anchored.
  split.
  - intros H. destruct (contains ".." s || startswith s "/") eqn:B; [discriminate|].
    apply orb_false_elim in B as [B1 B2].
    destruct (prefix_pattern_full s) eqn:F.
    + left. rewrite B1, B2. reflexivity.
    + right. simpl in H.
      destruct (last_char s) as [c|] eqn:L; [|discriminate].
      destruct (Ascii.eqb_spec c nl) as [->|]; [|discriminate]. simpl in H.
      pose proof (last_char_split s nl L) as Hs.
      exists (init s). split; [exact Hs|]. rewrite H.
      rewrite Hs in B1, B2. rewrite contains_two_snoc_nl in B1 by reflexivity.
      rewrite startswith_snoc_slash in B2. apply orb_false_elim in B2 as [B2 _].
      rewrite B1, B2. reflexivity.
  - intros [H|[t [-> H]]].
    + apply andb_prop in H as [H F]. apply andb_prop in H as [B1 B2].
      apply negb_true_iff in B1, B2. rewrite B1, B2, F. reflexivity.
    + apply andb_prop in H as [H F]. apply andb_prop in H as [B1 B2].
      apply negb_true_iff in B1, B2.
      rewrite contains_two_snoc_nl by reflexivity.
      rewrite startswith_snoc_slash, B1, B2, andb_false_r. simpl.
      rewrite last_char_snoc, init_snoc, F, orb_true_r. reflexivity.
Qed.

Lemma split_slash_single (s : string) : no_slash s = true -> split_slash s = [s].
Proof.
  intros H. pose proof (split_slash_prefix s "" H) as E.
  rewrite append_empty_r in E. rewrite E. simpl. rewrite append_empty_r. reflexivity.
Qed.

Lemma startswith_seg_slash (e x : string) :
  no_slash e = true -> e <> "" -> startswith (e ++ x) "/" = false.
Proof.
  intros H Hne. destruct e as [|c e]; [contradiction|].
  unfold no_slash in H. simpl in H. apply andb_prop in H as [Hc _].
  unfold startswith. cbn [append prefix].
  destruct (ascii_dec "/" c) as [<-|]; [discriminate|reflexivity].
Qed.

Lemma concat_segs_app (l1 l2 : list string) :
  concat_segs (l1 ++ l2) = concat_segs l1 ++ concat_segs l2.
Proof.
  induction l1 as [|a l1 IH]; simpl; [reflexivity|].
  rewrite IH, !append_assoc_str. reflexivity.
Qed.

Lemma join_abs_rev_cons (x : string) (stack : list string) :
  join_abs (rev (x :: stack)) = concat_segs (rev stack) ++ "/" ++ x.
Proof.
  simpl. destruct (rev stack ++ [x])%list eqn:E.
  - destruct (rev stack); discriminate E.
  - unfold join_abs. rewrite <- E, concat_segs_app. simpl.
    rewrite append_empty_r. reflexivity.
Qed.

Lemma wf_seg_no_slash (s : string) : wf_seg s -> no_slash s = true.
Proof. intros [_ [_ [_ H]]]. exact H. Qed.

(** A relative path of directory names resolves under the working
    directory. *)
Lemma resolve_lexical_segs (cwd : string) (segs : list string) :
  segs <> [] -> Forall wf_seg segs ->
  resolve_lexical cwd (String.concat "/" segs) =
  Some (join_abs (rev (rev segs ++ fold_left normalize_seg (split_slash cwd) [])%list)).
Proof.
  intros Hne Hwf. destruct segs as [|e rest]; [contradiction|].
  rewrite resolve_lexical_relative.
  2:{ inversion Hwf as [|? ? [He1 [_ [_ He]]] _]; subst.
      destruct rest; simpl; [|apply startswith_seg_slash; assumption].
      rewrite <- (append_empty_r e). apply startswith_seg_slash; assumption. }
  assert (Hsplit : split_slash (String.concat "/" (e :: rest)) = e :: rest).
  { clear Hne. revert e Hwf. induction rest as [|f rest IH]; intros e Hwf.
    - simpl. apply split_slash_single. inversion Hwf; subst.
      apply wf_seg_no_slash; assumption.
    - change (String.concat "/" (e :: f :: rest))
        with (e ++ String "/" (String.concat "/" (f :: rest))).
      inversion Hwf as [|? ? He Hr]; subst.
      rewrite split_slash_app, split_slash_single by (apply wf_seg_no_slash; exact He).
      rewrite IH by exact Hr. reflexivity. }
  rewrite Hsplit, fold_normalize_wf_push by exact Hwf. reflexivity.
Qed.

Lemma resolve_lexical_stack (cwd : string) (segs : list string) :
  segs <> [] -> Forall wf_seg segs ->
  resolve_lexical cwd (String.concat "/" segs) =
  Some (concat_segs (rev (fold_left normalize_seg (split_slash cwd) [])) ++
        concat_segs segs).
Proof.
  intros Hne Hwf. rewrite resolve_lexical_segs by assumption.
  rewrite rev_app_distr, rev_involutive.
  destruct segs as [|e rest]; [contradiction|].
  f_equal. unfold join_abs.
  destruct (rev _ ++ e :: rest)%list eqn:E.
  - destruct (rev (fold_left normalize_seg (split_slash cwd) [])); discriminate E.
  - rewrite <- E, concat_segs_app. reflexivity.
Qed.

(** [_validate_path] accepts [d ++ sfx ++ "/" ++ name] against the resolved
    directory [d], for every file name and every [sfx] that keeps
    [d ++ sfx] a directory name. *)
Lemma validate_path_under (cwd d sfx name base : string) :
  resolve_lexical cwd d = Some base ->
  wf_seg d -> wf_seg (d ++ sfx) -> wf_seg name ->
  _validate_path (resolve_lexical cwd) (d ++ sfx ++ "/" ++ name) base
  = Ok (base ++ sfx ++ "/" ++ name).
Proof.
  intros Hb Hd Hds Hn.
  set (N := fold_left normalize_seg (split_slash cwd) []).
  assert (Hbase : base = concat_segs (rev N) ++ "/" ++ d).
  { pose proof (resolve_lexical_stack cwd [d] ltac:(discriminate)
                  ltac:(constructor; [exact Hd|constructor])) as E.
    simpl in E. rewrite Hb in E. injection E as ->.
    rewrite append_empty_r. reflexivity. }
  assert (Hc : d ++ sfx ++ "/" ++ name = String.concat "/" [d ++ sfx; name]).
  { simpl. rewrite append_assoc_str. reflexivity. }
  unfold _validate_path. rewrite Hc, resolve_lexical_stack
    by (discriminate || (constructor; [assumption|constructor; [assumption|constructor]])).
  fold N.
  assert (Hrb : resolve_lexical cwd base = Some base).
  { rewrite Hbase. rewrite <- join_abs_rev_cons. apply resolve_lexical_normal.
    constructor; [exact Hd|apply cwd_stack_wf]. }
  rewrite Hrb. simpl. rewrite append_empty_r.
  replace (concat_segs (rev N) ++ String "/" ((d ++ sfx) ++ String "/" name))
    with (base ++ sfx ++ String "/" name)
    by (rewrite Hbase; rewrite !append_assoc_str; reflexivity).
  unfold startswith. rewrite prefix_app_l. reflexivity.
Qed.

Lemma prefix_seg_slash (base sfx rest : string) :
  no_slash sfx = true -> sfx <> "" ->
  startswith (base ++ sfx ++ rest) (base ++ "/") = false.
Proof.
  intros H Hne. unfold startswith. induction base as [|c base IH].
  - destruct sfx as [|d sfx]; [contradiction|].
    unfold no_slash in H. simpl in H. apply andb_prop in H as [Hd _].
    cbn [append prefix]. destruct (ascii_dec "/" d) as [<-|]; [discriminate|reflexivity].
  - cbn [append prefix]. destruct (ascii_dec c c) as [_|n]; [exact IH|contradiction n; reflexivity].
Qed.

(** [_validate_path] accepts a path into a sibling of the allowed
    directory [d] whose name extends [d]'s name by [sfx]: the resolved path
    is returned, and for a non-empty [sfx] it does not lie inside [d]. For
    [sfx = ""] this is a file directly inside [d]. *)
Theorem validate_path_accepts_prefix_siblings (cwd d sfx name base : string) :
  resolve_lexical cwd d = Some base ->
  wf_seg d -> wf_seg (d ++ sfx) -> wf_seg name ->
  _validate_path (resolve_lexical cwd) (d ++ sfx ++ "/" ++ name) base
  = Ok (base ++ sfx ++ "/" ++ name) /\
  (sfx <> "" -> startswith (base ++ sfx ++ "/" ++ name) (base ++ "/") = false).
Proof.
  intros Hb Hd Hds Hn. split; [exact (validate_path_under cwd d sfx name base Hb Hd Hds Hn)|].
  intros Hne. apply prefix_seg_slash; [|exact Hne].
  apply wf_seg_no_slash in Hds. unfold no_slash in Hds. rewrite all_chars_app in Hds.
  apply andb_prop in Hds as [_ Hs]. exact Hs.
Qed.

Lemma substring_split (s : string) (k : nat) :
  k <= String.length s ->
  substring 0 k s ++ substring k (String.length s - k) s = s.
Proof.
  revert k. induction s as [|c s IH]; intros k Hk.
  - simpl in Hk. assert (k = 0) as -> by lia. reflexivity.
  - destruct k as [|k].
    + simpl. f_equal. clear IH Hk. induction s as [|d s IH']; simpl; [reflexivity|].
      rewrite IH'. reflexivity.
    + simpl in Hk |- *. rewrite IH by lia. reflexivity.
Qed.

Lemma endswith_split (s suf : string) :
  endswith s suf = true ->
  s = substring 0 (String.length s - String.length suf) s ++ suf.
Proof.
  unfold endswith. intros H. apply andb_prop in H as [Hl He].
  apply Nat.leb_le in Hl. apply String.eqb_eq in He.
  pose proof (substring_split s (String.length s - String.length suf)
                ltac:(lia)) as E.
  replace (String.length s - (String.length s - String.length suf))
    with (String.length suf) in E by lia.
  rewrite He in E. symmetry. exact E.
Qed.

Lemma all_chars_impl (p q : ascii -> bool) (s : string) :
  (forall c, p c = true -> q c = true) -> all_chars p s = true -> all_chars q s = true.
Proof.
  intros Hpq. induction s as [|c s IH]; simpl; [reflexivity|].
  intros H. apply andb_prop in H as [Hc Hs]. rewrite (Hpq c Hc), (IH Hs). reflexivity.
Qed.

Lemma name_char_no_slash (c : ascii) : name_char c = true -> negb (Ascii.eqb c "/") = true.
Proof. intros H. destruct (Ascii.eqb_spec c "/") as [->|]; [discriminate H|reflexivity]. Qed.

Lemma template_full_seg (s : string) :
  template_pattern_full s = true -> no_slash s = true /\ 5 <= String.length s.
Proof.
  unfold template_pattern_full. cbv zeta. intros H.
  apply andb_prop in H as [H Hc]. apply andb_prop in H as [Hl He].
  apply Nat.leb_le in Hl. split; [|exact Hl].
  pose proof (endswith_split s ".txt" He) as E. cbn [String.length] in E.
  rewrite E. unfold no_slash. rewrite all_chars_app.
  rewrite (all_chars_impl _ _ _ name_char_no_slash Hc). reflexivity.
Qed.

Lemma wf_seg_of_length (s : string) : no_slash s = true -> 3 <= String.length s -> wf_seg s.
Proof.
  intros H L. repeat split; try exact H; intros ->; simpl in L; lia.
Qed.

(** A template name the schema accepts is a plain file name. *)
Lemma template_name_wf (t : string) :
  py_match_anchored template_pattern_full t = true -> wf_seg t.
Proof.
  unfold py_match_anchored. intros H. apply orb_prop in H as [H|H].
  - apply template_full_seg in H as [H L]. apply wf_seg_of_length; [exact H|lia].
  - destruct (last_char t) as [c|] eqn:Lc; [|discriminate].
    apply andb_prop in H as [Hc H]. apply Ascii.eqb_eq in Hc. subst c.
    apply template_full_seg in H as [H L].
    pose proof (last_char_split t nl Lc) as Ht.
    apply wf_seg_of_length.
    + rewrite Ht. unfold no_slash. rewrite all_chars_app. unfold no_slash in H.
      rewrite H. reflexivity.
    + rewrite Ht, length_app. lia.
Qed.

Lemma pure_path_two (a b : string) :
  wf_seg a -> wf_seg b -> pure_path (a ++ "/" ++ b) = a ++ "/" ++ b.
Proof.
  intros Ha Hb. unfold pure_path.
  change ("/" ++ b) with (String "/" b).
  rewrite split_slash_app, !split_slash_single by (apply wf_seg_no_slash; assumption).
  destruct Ha as [Ha1 [Ha2 [Ha3 Ha4]]]. destruct Hb as [Hb1 [Hb2 [Hb3 Hb4]]].
  simpl. apply String.eqb_neq in Ha1, Ha2, Hb1, Hb2.
  rewrite Ha1, Ha2, Hb1, Hb2. simpl.
  rewrite startswith_seg_slash by (assumption || (apply String.eqb_neq; assumption)).
  destruct a as [|c a]; [discriminate Ha1|reflexivity].
Qed.

Lemma path_div_seg (a b : string) :
  wf_seg a -> wf_seg b -> path_div a b = a ++ "/" ++ b.
Proof.
  intros Ha Hb. unfold path_div.
  rewrite <- (append_empty_r b) at 1.
  rewrite startswith_seg_slash by (destruct Hb as [? [? [? ?]]]; assumption).
  apply pure_path_two; assumption.
Qed.

Lemma PROMPT_TEMPLATES_DIR_resolve (cwd : string) :
  resolve_lexical cwd "prompt_templates" = Some (PROMPT_TEMPLATES_DIR cwd).
Proof. reflexivity. Qed.

(** On a file system without symbolic links (paths resolved lexically),
    for every template name the configuration schema accepts, the template
    path that process_prompt builds passes the templates-root check of
    load_template, in the working directory of the import, and resolves to
    the name inside the root. *)
Theorem template_path_in_templates_root (cwd t : string) :
  py_match_anchored template_pattern_full t = true ->
  _validate_path (resolve_lexical cwd) (path_div "prompt_templates" t)
    (PROMPT_TEMPLATES_DIR cwd)
  = Ok (PROMPT_TEMPLATES_DIR cwd ++ "/" ++ t).
Proof.
  intros H. apply template_name_wf in H.
  assert (Hd : wf_seg "prompt_templates") by (repeat split; discriminate).
  rewrite path_div_seg by assumption.
  rewrite <- (append_empty_r "prompt_templates") at 1.
  rewrite append_assoc_str.
  replace (PROMPT_TEMPLATES_DIR cwd ++ "/" ++ t)
    with (PROMPT_TEMPLATES_DIR cwd ++ "" ++ "/" ++ t) by reflexivity.
  apply validate_path_under; [apply PROMPT_TEMPLATES_DIR_resolve|exact Hd| |exact H].
  rewrite append_empty_r. exact Hd.
Qed.

Lemma rstrip_ws_id (s : string) (c : ascii) :
  last_char s = Some c -> py_is_space c = false -> rstrip_ws s = s.
Proof.
  intros L Hc. induction s as [|d r IH]; [discriminate|].
  rewrite last_char_cons in L. simpl.
  destruct r as [|e r'].
  - injection L as ->. simpl. rewrite Hc. reflexivity.
  - rewrite (IH L). reflexivity.
Qed.

Lemma HTML_HEAD_cons : exists r, HTML_HEAD = String "<" r.
Proof. eexists. reflexivity. Qed.

Lemma html_page_strip (content : string) :
  py_strip (HTML_HEAD ++ content ++ HTML_TAIL) = HTML_HEAD ++ content ++ HTML_TAIL.
Proof.
  unfold py_strip. destruct HTML_HEAD_cons as [r Hr]. rewrite Hr.
  change (String "<" r ++ content ++ HTML_TAIL) with (String "<" (r ++ content ++ HTML_TAIL)).
  cbn [lstrip_ws]. change (py_is_space "<") with false. cbv iota.
  apply (rstrip_ws_id _ ">"%char); [|reflexivity].
  change (String "<" (r ++ content ++ HTML_TAIL)) with (String "<" r ++ content ++ HTML_TAIL).
  rewrite <- append_assoc_str, (last_char_app _ HTML_TAIL) by discriminate. reflexivity.
Qed.

Lemma html_page_doctype (x : string) :
  startswith (HTML_HEAD ++ x) "<!DOCTYPE" = true.
Proof.
  unfold startswith. replace (HTML_HEAD ++ x) with ("<!DOCTYPE" ++ (substring 9 (String.length HTML_HEAD - 9) HTML_HEAD ++ x)).
  - apply prefix_app_l.
  - rewrite <- append_assoc_str. f_equal.
Qed.

Lemma output_text_html (x : string) :
  output_text x "html" =
  if negb (startswith (py_strip x) "<!DOCTYPE") && negb (startswith (py_strip x) "<html")
  then HTML_HEAD ++ x ++ HTML_TAIL else x.
Proof. reflexivity. Qed.

(** What save_output writes for an [html] output, after stripping
    whitespace, starts with ["<!DOCTYPE"] or ["<html"], so writing that
    text again through save_output leaves it unchanged: the page wrapper is
    never added twice. *)
Theorem save_output_html_stable (content : string) :
  let written := output_text content "html" in
  (startswith (py_strip written) "<!DOCTYPE" || startswith (py_strip written) "<html")
    = true /\
  output_text written "html" = written.
Proof.
  cbv zeta. rewrite !output_text_html.
  destruct (startswith (py_strip content) "<!DOCTYPE") eqn:D;
    cbn [negb andb orb]; rewrite ?D; cbn [negb andb orb];
    [split; reflexivity|].
  destruct (startswith (py_strip content) "<html") eqn:Hh;
    cbn [negb andb orb]; rewrite ?D, ?Hh; cbn [negb andb orb].
  - split; reflexivity.
  - rewrite html_page_strip, html_page_doctype. cbn [negb andb orb].
    split; reflexivity.
Qed.

(** Calling invoke_bedrock with a [model_params] dict that has
    none of the keys [max_tokens], [temperature] and [top_p] (such as the
    empty dict process_prompt passes for a configuration without
    [model_params]) sends the same request and gives the same result as
    calling it with [None], which selects the default parameters. *)
Theorem invoke_params_without_keys_as_default
  (invoke_model : string -> json -> (string * string) + json)
  (prompt : string) (model_id : option string) (model_params : list (string * json)) :
  dict_get model_params "max_tokens" = None ->
  dict_get model_params "temperature" = None ->
  dict_get model_params "top_p" = None ->
  invoke_bedrock invoke_model prompt model_id (Some model_params)
  = invoke_bedrock invoke_model prompt model_id None.
Proof.
  intros H1 H2 H3. unfold invoke_bedrock, claude_body, titan_body, get_default.
  rewrite H1, H2, H3. reflexivity.
Qed.

(** invoke_bedrock reads only the keys [max_tokens],
    [temperature] and [top_p] of [model_params]: two dicts that agree on
    these three keys give the same request and the same result, whatever
    other keys they hold. *)
Theorem invoke_params_other_keys_ignored
  (invoke_model : string -> json -> (string * string) + json)
  (prompt : string) (model_id : option string) (mp1 mp2 : list (string * json)) :
  dict_get mp1 "max_tokens" = dict_get mp2 "max_tokens" ->
  dict_get mp1 "temperature" = dict_get mp2 "temperature" ->
  dict_get mp1 "top_p" = dict_get mp2 "top_p" ->
  invoke_bedrock invoke_model prompt model_id (Some mp1)
  = invoke_bedrock invoke_model prompt model_id (Some mp2).
Proof.
  intros H1 H2 H3. unfold invoke_bedrock, claude_body, titan_body, get_default.
  rewrite H1, H2, H3. reflexivity.
Qed.

Lemma init_ok (client_raises : string -> string -> bool) (region bucket prefix : string)
  (evs : list event) (self : PromptProcessor) :
  PromptProcessor_init client_raises region bucket prefix = (evs, Ok self) ->
  region_allowed region = true /\ _validate_s3_bucket_name bucket = true /\
  _validate_s3_prefix prefix = true /\
  self = mkProcessor region bucket (rstrip_slash prefix ++ "/").
Proof.
  unfold PromptProcessor_init.
  destruct (region_allowed region); [|discriminate].
  destruct (_validate_s3_bucket_name bucket); [|discriminate].
  destruct (_validate_s3_prefix prefix); [|discriminate]. simpl.
  destruct (client_raises "bedrock-runtime" region); [discriminate|].
  destruct (client_raises "s3" region); [discriminate|].
  intros H. injection H as _ <-. repeat split.
Qed.

Lemma no_dot_contains (s : string) : no_dot s = true -> contains ".." s = false.
Proof.
  induction s as [|c r IH]; intros H; [reflexivity|].
  unfold no_dot in H. simpl in H. apply andb_prop in H as [Hc Hr].
  cbn [contains prefix]. rewrite (IH Hr), orb_false_r.
  destruct (ascii_dec "." c) as [<-|]; [discriminate Hc|reflexivity].
Qed.

Lemma no_dot_last (s : string) (c : ascii) :
  no_dot s = true -> last_char s = Some c -> Ascii.eqb c "." = false.
Proof.
  intros H L. apply negb_true_iff. exact (all_chars_last _ _ _ H L).
Qed.

Lemma output_name_chars (n : string) :
  py_match_anchored output_name_pattern_full n = true ->
  n <> "" /\ no_dot n = true /\ no_slash n = true.
Proof.
  assert (Hn : forall s, all_chars name_char s = true -> no_dot s = true /\ no_slash s = true).
  { intros s H. split; (eapply all_chars_impl; [|exact H]); intros c Hc;
      destruct (Ascii.eqb_spec c "."), (Ascii.eqb_spec c "/"); subst;
      try discriminate Hc; reflexivity. }
  unfold py_match_anchored, output_name_pattern_full. intros H.
  apply orb_prop in H as [H|H].
  - apply andb_prop in H as [He H]. apply negb_true_iff, String.eqb_neq in He.
    split; [exact He|exact (Hn n H)].
  - destruct (last_char n) as [c|] eqn:L; [|discriminate].
    apply andb_prop in H as [Hc H]. apply Ascii.eqb_eq in Hc. subst c.
    apply andb_prop in H as [_ H]. apply Hn in H as [H1 H2].
    pose proof (last_char_split n nl L) as E. rewrite E.
    split; [destruct (init n); discriminate|].
    unfold no_dot, no_slash in *. rewrite !all_chars_app, H1, H2. split; reflexivity.
Qed.

Lemma rstrip_slash_prefix_of (s : string) : exists u, s = rstrip_slash s ++ u.
Proof.
  induction s as [|c r [u IH]]; [exists ""; reflexivity|]. simpl.
  destruct (String.eqb (rstrip_slash r) "" && Ascii.eqb c "/").
  - exists (String c r). reflexivity.
  - exists u. simpl. rewrite <- IH. reflexivity.
Qed.

Lemma contains_dd_app_false (x y : string) :
  contains ".." x = false -> contains ".." y = false ->
  match last_char x, y with
  | Some c, String d _ => Ascii.eqb c "." && Ascii.eqb d "."
  | _, _ => false
  end = false ->
  contains ".." (x ++ y) = false.
Proof. intros H1 H2 H3. rewrite contains_two_app, H1, H2, H3. reflexivity. Qed.

(** For a processor the constructor built, an output name the
    configuration schema accepts and an output format of the schema, the
    object key process_prompt uploads to contains no [".."]. *)
Theorem s3_key_no_dotdot (client_raises : string -> string -> bool)
  (region bucket prefix : string) (evs : list event) (self : PromptProcessor)
  (output_name output_format : string) :
  PromptProcessor_init client_raises region bucket prefix = (evs, Ok self) ->
  py_match_anchored output_name_pattern_full output_name = true ->
  output_format = "html" \/ output_format = "md" ->
  contains ".." (s3_key_of self output_name output_format) = false.
Proof.
  intros Hi Hn Hf.
  apply init_ok in Hi as [_ [_ [Hp ->]]].
  apply output_name_chars in Hn as [Hne [Hnd _]].
  unfold _validate_s3_prefix in Hp.
  destruct (contains ".." prefix) eqn:Hdd; [discriminate|].
  destruct (rstrip_slash_prefix_of prefix) as [u Hu].
  assert (HR : contains ".." (rstrip_slash prefix) = false).
  { rewrite Hu, contains_two_app in Hdd. apply orb_false_elim in Hdd as [Hdd _].
    apply orb_false_elim in Hdd as [Hdd _]. exact Hdd. }
  unfold s3_key_of. simpl s3_prefix. rewrite append_assoc_str.
  apply contains_dd_app_false; [exact HR| |].
  2:{ destruct (last_char (rstrip_slash prefix)) as [c|];
      [simpl; rewrite andb_false_r; reflexivity|reflexivity]. }
  change ("/" ++ "outputs/" ++ output_name ++ "." ++ output_format)
    with ("/outputs/" ++ (output_name ++ "." ++ output_format)).
  apply contains_dd_app_false; [reflexivity| |].
  2:{ destruct output_name as [|d n']; [contradiction|]. simpl.
      destruct (Ascii.eqb d "."); reflexivity. }
  apply contains_dd_app_false; [apply no_dot_contains, Hnd| |].
  - destruct Hf as [->| ->]; reflexivity.
  - destruct (last_char output_name) as [c|] eqn:L; [|reflexivity].
    rewrite (no_dot_last _ _ Hnd L). reflexivity.
Qed.

Lemma bind_cases {A B : Type} (m : M A) (f : A -> M B) (t : list step) (r : perror + B) :
  bind m f = (t, r) ->
  (exists e, m = (t, inl e) /\ r = inl e) \/
  (exists t1 a t2, m = (t1, inr a) /\ f a = (t2, r) /\ t = (t1 ++ t2)%list).
Proof.
  unfold bind. destruct m as [t1 [e|a]].
  - intros H. injection H as H1 H2. subst. left. exists e. split; reflexivity.
  - destruct (f a) as [t2 r2] eqn:E. intros H. injection H as <- <-.
    right. exists t1, a, t2. repeat split. exact E.
Qed.

Lemma io_cases {A : Type} (m : list event * result A) (t : list step) (r : perror + A) :
  io m = (t, r) ->
  t = map Io (fst m) /\
  ((exists a, snd m = Ok a /\ r = inr a) \/ (exists e, snd m = Err e /\ r = inl (Raised e))).
Proof.
  unfold io. intros H. injection H as <- <-. split; [reflexivity|].
  destruct (snd m) as [a|e]; [left; exists a|right; exists e]; split; reflexivity.
Qed.

Lemma forallb_is_io_map (evs : list event) : forallb is_io (map Io evs) = true.
Proof. induction evs; simpl; auto. Qed.

Lemma existsb_is_invoke_map (evs : list event) :
  existsb is_invoke (map Io evs) = existsb is_invoke_event evs.
Proof. induction evs as [|e evs IH]; simpl; [reflexivity|]. rewrite IH. reflexivity. Qed.


Lemma load_config_no_invoke resolve read_file parse_json prompts_dir config_path :
  existsb is_invoke_event
    (fst (load_config resolve read_file parse_json prompts_dir config_path)) = false.
Proof.
  unfold load_config.
  destruct (_validate_path resolve config_path prompts_dir); [|reflexivity].
  destruct (read_file a); [|reflexivity]. destruct (parse_json s); [|reflexivity].
  destruct (negb (schema_valid j)); [reflexivity|].
  destruct (Nat.ltb MAX_VARIABLES (variables_len j)); reflexivity.
Qed.


Lemma load_template_no_invoke resolve stat_size read_file templates_dir template_path :
  existsb is_invoke_event
    (fst (load_template resolve stat_size read_file templates_dir template_path)) = false.
Proof.
  unfold load_template.
  destruct (_validate_path resolve template_path templates_dir); [|reflexivity].
  destruct (stat_size a); [|reflexivity].
  destruct (Nat.ltb MAX_TEMPLATE_SIZE n); [reflexivity|].
  destruct (read_file a); reflexivity.
Qed.

(** invoke_bedrock makes no request and raises the unsupported-model
    error, or makes exactly one request; after a request it raises only
    the call error or the response-shape error. *)
Lemma invoke_bedrock_trace invoke_model prompt model_id model_params :
  let (t, r) := invoke_bedrock invoke_model prompt model_id model_params in
  (t = [] /\ exists m, r = Err (UnsupportedModel m)) \/
  (exists m b, t = [InvokeModel m b] /\
     forall e, r = Err e -> before_model_error (Raised e) = false).
Proof.
  unfold invoke_bedrock.
  set (m := match model_id with Some x => x | None => DEFAULT_MODEL_ID end).
  set (mp := match model_params with Some p => p | None => DEFAULT_MODEL_PARAMS end).
  destruct (contains "anthropic.claude" m) eqn:A; cbv beta iota zeta.
  - destruct (invoke_model m (claude_body prompt mp)) as [[c msg]|resp];
      cbv beta iota zeta; right; rewrite ?A; eexists _, _; (split; [reflexivity|]).
    + intros e H. injection H as <-. reflexivity.
    + intros e. unfold extract.
      destruct (subscripts resp claude_text_path); intros H; [discriminate H|injection H as <-; reflexivity].
  - destruct (contains "amazon.titan" m) eqn:T; cbv beta iota zeta.
    + destruct (invoke_model m (titan_body prompt mp)) as [[c msg]|resp];
        cbv beta iota zeta; right; rewrite ?A, ?T; eexists _, _; (split; [reflexivity|]).
      * intros e H. injection H as <-. reflexivity.
      * intros e. cbv beta iota. unfold extract.
        destruct (subscripts resp titan_text_path); intros H; [discriminate H|injection H as <-; reflexivity].
    + left. split; [reflexivity|]. eexists. reflexivity.
Qed.

Ltac trace_facts :=
  repeat (rewrite ?forallb_app, ?existsb_app, ?forallb_is_io_map, ?existsb_is_invoke_map,
                  ?load_config_no_invoke, ?load_template_no_invoke; cbn [forallb existsb andb orb]).

(** When process_prompt fails with an error raised before the
    model call (loading or validating the configuration, a missing field,
    loading or rendering the template, an unsupported model), it has
    invoked no model, written no file and uploaded nothing. *)
Theorem process_prompt_early_error_no_effects
  resolve stat_size read_file parse_json invoke_model write_raises upload_error
  py_str_other prompts_dir templates_dir (self : PromptProcessor) (config_path : string)
  (trace : list step) (e : perror) :
  process_prompt resolve stat_size read_file parse_json invoke_model write_raises
    upload_error py_str_other prompts_dir templates_dir self config_path = (trace, inl e) ->
  before_model_error e = true ->
  forallb is_io trace = true /\ existsb is_invoke trace = false.
Proof.
  intros H Hb. unfold process_prompt in H.
  apply bind_cases in H as [[e1 [Hm _]]|[t1 [config [t2 [Hm [Hf ->]]]]]].
  { apply io_cases in Hm as [-> _]. trace_facts. split; reflexivity. }
  apply io_cases in Hm as [-> _]. cbv beta zeta in Hf.
  destruct (truthy_str (dict_get _ "template")) as [tn|].
  2:{ injection Hf as <- _. trace_facts. split; reflexivity. }
  destruct (truthy_str (dict_get _ "output_name")) as [on|].
  2:{ injection Hf as <- _. trace_facts. split; reflexivity. }
  apply bind_cases in Hf as [[e2 [Hm _]]|[t3 [tc [t4 [Hm [Hf ->]]]]]].
  { apply io_cases in Hm as [-> _]. trace_facts. split; reflexivity. }
  apply io_cases in Hm as [-> _].
  apply bind_cases in Hf as [[e3 [Hm _]]|[t5 [rp [t6 [Hm [Hf ->]]]]]].
  { apply io_cases in Hm as [-> _]. trace_facts. split; reflexivity. }
  apply io_cases in Hm as [-> _].
  apply bind_cases in Hf as [[e4 [Hm He]]|[t7 [g [t8 [Hm [Hf ->]]]]]].
  - injection He as He. subst e4.
    apply io_cases in Hm as [-> [[a [_ Habs]]|[e0 [He0 Hr]]]]; [discriminate Habs|].
    injection Hr as ->.
    match type of He0 with snd (invoke_bedrock ?a ?b ?c ?d) = _ =>
      pose proof (invoke_bedrock_trace a b c d) as HT;
      destruct (invoke_bedrock a b c d) as [ti ri] end.
    simpl in He0. subst ri. simpl.
    destruct HT as [[-> _]|[m [b [-> Hlate]]]].
    + trace_facts. split; reflexivity.
    + rewrite (Hlate e0 eq_refl) in Hb. discriminate Hb.
  - exfalso. destruct g as [| | | | s | |]; try (injection Hf as _ <-; discriminate Hb).
    unfold save_output in Hf. destruct (write_raises _).
    + injection Hf as _ <-. discriminate Hb.
    + apply bind_cases in Hf as [[e5 [Hs _]]|[t9 [u [t10 [Hs [Hf _]]]]]];
        [discriminate Hs|].
      apply bind_cases in Hf as [[e6 [Hu He']]|[t11 [url [t12 [Hu [Hf _]]]]]].
      * injection He' as He'. subst e6. unfold upload_to_s3 in Hu.
        destruct (upload_error _ _ _) as [[c msg]|];
          injection Hu as _ He6; [subst e; discriminate Hb|discriminate He6].
      * discriminate Hf.
Qed.












Lemma process_all_partition (world : Type)
  (process : PromptProcessor -> world -> string -> world * (perror + processing_result))
  (self : PromptProcessor) (config_files : list string) :
  forall w w' results failed,
  process_all world process self w config_files = (w', results, failed) ->
  List.length results + List.length failed = List.length config_files /\
  incl failed config_files.
Proof.
  induction config_files as [|cf rest IH]; intros w w' results failed H.
  - simpl in H. injection H as _ <- <-. split; [reflexivity|apply incl_refl].
  - simpl in H. destruct (process self w cf) as [w1 r].
    destruct (process_all world process self w1 rest) as [[w2 rs] fl] eqn:E.
    apply IH in E as [Hl Hi].
    destruct r; injection H as _ <- <-; simpl; split.
    + lia.
    + apply incl_cons; [left; reflexivity|]. apply incl_tl, Hi.
    + lia.
    + apply incl_tl, Hi.
Qed.

(** main without any configuration file exits with status 2 (the
    argument parser's error) before anything else. Otherwise: main exits
    with status 0 exactly when the processing loop ran and no
    configuration failed; whenever the loop runs, every configuration file
    ends up in the results or in the failed list, so the two lengths add up
    to the number of files, and every failed entry is one of the given
    files; and without a bucket (neither [--bucket] nor [S3_BUCKET], or an
    empty one) main creates no client, runs no processing and exits with
    status 1. *)
Theorem main_outcome (world : Type)
  (process : PromptProcessor -> world -> string -> world * (perror + processing_result))
  client_raises env w config_files region_opt bucket_opt prefix_opt evs out code :
  main world process client_raises env w config_files region_opt bucket_opt prefix_opt
    = (evs, out, code) ->
  (config_files = [] -> evs = [] /\ out = None /\ code = 2) /\
  (code = 0 <-> exists results, out = Some (results, [])) /\
  (forall results failed, out = Some (results, failed) ->
     List.length results + List.length failed = List.length config_files /\
     incl failed config_files) /\
  (config_files <> [] ->
   (match bucket_opt with Some b => Some b | None => env "S3_BUCKET" end = None \/
    match bucket_opt with Some b => Some b | None => env "S3_BUCKET" end = Some "") ->
   evs = [] /\ out = None /\ code = 1).
Proof.
  unfold main.
  destruct config_files as [|cf rest] eqn:Ecf.
  { intros H. injection H as <- <- <-. split; [|split; [|split]].
    - intros _. repeat split.
    - split; [discriminate|intros [rs Hrs]; discriminate Hrs].
    - intros rs fl Habs. discriminate Habs.
    - intros Habs. contradiction. }
  rewrite <- Ecf.
  assert (Hne : config_files <> []) by (rewrite Ecf; discriminate).
  destruct (match bucket_opt with Some b => Some b | None => env "S3_BUCKET" end)
    as [bucket|].
  2:{ intros H. injection H as <- <- <-. split; [|split; [|split]].
      - intros Habs. contradiction.
      - split; [discriminate|intros [rs Hrs]; discriminate Hrs].
      - intros rs fl Habs. discriminate Habs.
      - intros _ _. repeat split. }
  destruct (String.eqb_spec bucket "") as [->|Hb].
  { intros H. injection H as <- <- <-. split; [|split; [|split]].
    - intros Habs. contradiction.
    - split; [discriminate|intros [rs Hrs]; discriminate Hrs].
    - intros rs fl Habs. discriminate Habs.
    - intros _ _. repeat split. }
  destruct (PromptProcessor_init _ _ _ _) as [evs0 [processor|e]].
  2:{ intros H. injection H as <- <- <-. split; [|split; [|split]].
      - intros Habs. contradiction.
      - split; [discriminate|intros [rs Hrs]; discriminate Hrs].
      - intros rs fl Habs. discriminate Habs.
      - intros _ [Habs|Habs]; [discriminate Habs|injection Habs as Habs; contradiction]. }
  destruct (process_all world process processor w config_files) as [[w2 rs] fl] eqn:E.
  apply process_all_partition in E.
  intros H. injection H as <- <- <-. split; [|split; [|split]].
  - intros Habs. contradiction.
  - destruct fl as [|f fl]; split.
    + intros _. exists rs. reflexivity.
    + reflexivity.
    + discriminate.
    + intros [rs' Habs]. discriminate Habs.
  - intros rs' fl' Hs. injection Hs as <- <-. exact E.
  - intros _ [Habs|Habs]; [discriminate Habs|injection Habs as Habs; contradiction].
Qed.

Lemma in_map_Io (ev : event) (l : list event) : In (Io ev) (map Io l) -> In ev l.
Proof.
  intros H. apply in_map_iff in H as [ev' [Heq Hin]]. injection Heq as ->. exact Hin.
Qed.

Lemma load_config_reads resolve read_file parse_json prompts_dir config_path p :
  In (ReadFile p) (fst (load_config resolve read_file parse_json prompts_dir config_path)) ->
  resolve config_path = Some p /\
  exists base, resolve prompts_dir = Some base /\ startswith p base = true.
Proof.
  unfold load_config, _validate_path.
  destruct (resolve config_path) as [rp|]; [|intros []].
  destruct (resolve prompts_dir) as [rb|]; [|intros []].
  destruct (startswith rp rb) eqn:Hs; [|intros []].
  intros H. assert (Hp : rp = p).
  { cbn [negb] in H.
    destruct (read_file rp); [destruct (parse_json _)|];
      [destruct (negb (schema_valid _)); [|destruct (Nat.ltb _ _)]| |];
      destruct H as [H|[]]; injection H as ->; reflexivity. }
  subst rp. split; [reflexivity|]. exists rb. split; [reflexivity|exact Hs].
Qed.

Lemma load_template_reads resolve stat_size read_file templates_dir template_path p :
  In (ReadFile p)
    (fst (load_template resolve stat_size read_file templates_dir template_path)) ->
  resolve template_path = Some p /\
  (exists base, resolve templates_dir = Some base /\ startswith p base = true) /\
  (exists size, stat_size p = Some size /\ size <= MAX_TEMPLATE_SIZE) /\
  fst (load_template resolve stat_size read_file templates_dir template_path)
    = [StatFile p; ReadFile p].
Proof.
  unfold load_template, _validate_path.
  destruct (resolve template_path) as [rp|]; [|intros []].
  destruct (resolve templates_dir) as [rb|]; [|intros []].
  destruct (startswith rp rb) eqn:Hs; [|intros []]. cbn [negb].
  destruct (stat_size rp) as [size|] eqn:Hsz.
  2:{ intros [H|[]]; discriminate H. }
  destruct (Nat.ltb_spec MAX_TEMPLATE_SIZE size) as [_|Hle].
  { intros [H|[]]; discriminate H. }
  intros H. assert (Hp : rp = p).
  { destruct (read_file rp); destruct H as [H|[H|[]]]; try discriminate H;
      injection H as ->; reflexivity. }
  subst rp. split; [reflexivity|]. split; [exists rb; split; [reflexivity|exact Hs]|].
  split; [exists size; split; [exact Hsz|exact Hle]|].
  destruct (read_file p); reflexivity.
Qed.

(** load_template reads a file only after the path check and the size
    check have passed: a file it reads is the resolved template path, lies
    under the resolved templates root (by the string prefix test), and its
    size, queried before the read, is at most [MAX_TEMPLATE_SIZE] bytes. *)
Theorem load_template_reads_only_checked
  resolve stat_size read_file templates_dir template_path p :
  In (ReadFile p)
    (fst (load_template resolve stat_size read_file templates_dir template_path)) ->
  resolve template_path = Some p /\
  (exists base, resolve templates_dir = Some base /\ startswith p base = true) /\
  (exists size, stat_size p = Some size /\ size <= MAX_TEMPLATE_SIZE).
Proof.
  intros H. apply load_template_reads in H as [Hr [Hb [Hs _]]].
  split; [exact Hr|split; [exact Hb|exact Hs]].
Qed.

Lemma invoke_bedrock_no_read invoke_model prompt model_id model_params p :
  ~ In (ReadFile p) (fst (invoke_bedrock invoke_model prompt model_id model_params)).
Proof.
  pose proof (invoke_bedrock_trace invoke_model prompt model_id model_params) as HT.
  destruct (invoke_bedrock invoke_model prompt model_id model_params) as [t r].
  simpl. destruct HT as [[-> _]|[m [b [-> _]]]]; [intros []|].
  intros [H|[]]; discriminate H.
Qed.

Ltac reads_cases Hin :=
  repeat match type of Hin with
  | In _ (_ ++ _)%list => apply in_app_or in Hin as [Hin|Hin]
  | In (Io _) (map Io _) => apply in_map_Io in Hin
  | In _ [] => destruct Hin
  | In _ (_ :: _) => destruct Hin as [Hin|Hin]; [discriminate Hin|]
  end.

Lemma process_prompt_reads_roots
  resolve stat_size read_file parse_json invoke_model write_raises upload_error
  py_str_other prompts_dir templates_dir (self : PromptProcessor) (config_path : string)
  (trace : list step) r p :
  process_prompt resolve stat_size read_file parse_json invoke_model write_raises
    upload_error py_str_other prompts_dir templates_dir self config_path = (trace, r) ->
  In (Io (ReadFile p)) trace ->
  (exists base, resolve prompts_dir = Some base /\ startswith p base = true) \/
  (exists base, resolve templates_dir = Some base /\ startswith p base = true /\
   exists size, stat_size p = Some size /\ size <= MAX_TEMPLATE_SIZE).
Proof.
  intros H Hin. unfold process_prompt in H.
  apply bind_cases in H as [[e1 [Hm _]]|[t1 [config [t2 [Hm [Hf ->]]]]]];
    apply io_cases in Hm as [-> _].
  { reads_cases Hin. left. apply load_config_reads in Hin as [_ Hb]. exact Hb. }
  apply in_app_or in Hin as [Hin|Hin].
  { apply in_map_Io, load_config_reads in Hin as [_ Hb]. left. exact Hb. }
  cbv beta zeta in Hf.
  destruct (truthy_str (dict_get _ "template")) as [tn|].
  2:{ injection Hf as <- _. destruct Hin. }
  destruct (truthy_str (dict_get _ "output_name")) as [on|].
  2:{ injection Hf as <- _. destruct Hin. }
  right.
  apply bind_cases in Hf as [[e2 [Hm _]]|[t3 [tc [t4 [Hm [Hf ->]]]]]];
    apply io_cases in Hm as [-> _].
  { apply in_map_Io, load_template_reads in Hin as [_ [Hb [Hs _]]].
    destruct Hb as [base [Hb Hp]]. exists base. repeat split; assumption. }
  apply in_app_or in Hin as [Hin|Hin].
  { apply in_map_Io, load_template_reads in Hin as [_ [Hb [Hs _]]].
    destruct Hb as [base [Hb Hp]]. exists base. repeat split; assumption. }
  exfalso.
  apply bind_cases in Hf as [[e3 [Hm _]]|[t5 [rp [t6 [Hm [Hf ->]]]]]];
    apply io_cases in Hm as [-> _].
  { destruct Hin. }
  apply in_app_or in Hin as [Hin|Hin]; [destruct Hin|].
  apply bind_cases in Hf as [[e4 [Hm _]]|[t7 [g [t8 [Hm [Hf ->]]]]]];
    apply io_cases in Hm as [-> _].
  { apply in_map_Io in Hin. eapply invoke_bedrock_no_read, Hin. }
  apply in_app_or in Hin as [Hin|Hin].
  { apply in_map_Io in Hin. eapply invoke_bedrock_no_read, Hin. }
  destruct g as [| | | | content | |]; try (injection Hf as <- _; destruct Hin).
  unfold save_output in Hf. destruct (write_raises _).
  { injection Hf as <- _. destruct Hin. }
  apply bind_cases in Hf as [[e5 [Hs _]]|[t9 [u [t10 [Hs [Hf ->]]]]]];
    [discriminate Hs|].
  injection Hs as <- _.
  apply in_app_or in Hin as [Hin|Hin]; [destruct Hin as [Hin|[]]; discriminate Hin|].
  unfold upload_to_s3 in Hf.
  apply bind_cases in Hf as [[e6 [Hu _]]|[t11 [url [t12 [Hu [Hf ->]]]]]].
  - destruct (upload_error _ _ _) as [[c msg]|]; injection Hu as <- _;
      destruct Hin as [Hin|[]]; discriminate Hin.
  - destruct (upload_error _ _ _) as [[c msg]|]; [discriminate Hu|].
    injection Hu as <- _. injection Hf as <- _.
    destruct Hin as [Hin|Hin]; [discriminate Hin|destruct Hin].
Qed.

Lemma ends_with_two_app {A : Type} (l0 l : list A) (x y : A) :
  (exists pre, l = (pre ++ [x; y])%list) -> exists pre, (l0 ++ l)%list = (pre ++ [x; y])%list.
Proof. intros [pre ->]. exists (l0 ++ pre)%list. rewrite <- app_assoc. reflexivity. Qed.

Lemma in_map_Io_put (l : list event) lp b k ct cc : ~ In (Put lp b k ct cc) (map Io l).
Proof. intros H. apply in_map_iff in H as [ev [Habs _]]. discriminate Habs. Qed.

Lemma process_prompt_put_after_write
  resolve stat_size read_file parse_json invoke_model write_raises upload_error
  py_str_other prompts_dir templates_dir (self : PromptProcessor) (config_path : string)
  (trace : list step) r lp b k ct cc :
  process_prompt resolve stat_size read_file parse_json invoke_model write_raises
    upload_error py_str_other prompts_dir templates_dir self config_path = (trace, r) ->
  In (Put lp b k ct cc) trace ->
  exists text pre, trace = (pre ++ [Write lp text; Put lp b k ct cc])%list.
Proof.
  intros H Hin. unfold process_prompt in H.
  apply bind_cases in H as [[e1 [Hm _]]|[t1 [config [t2 [Hm [Hf ->]]]]]];
    apply io_cases in Hm as [-> _].
  { exfalso. exact (in_map_Io_put _ _ _ _ _ _ Hin). }
  apply in_app_or in Hin as [Hin|Hin]; [exfalso; exact (in_map_Io_put _ _ _ _ _ _ Hin)|].
  cbv beta zeta in Hf.
  destruct (truthy_str (dict_get _ "template")) as [tn|].
  2:{ injection Hf as <- _. destruct Hin. }
  destruct (truthy_str (dict_get _ "output_name")) as [on|].
  2:{ injection Hf as <- _. destruct Hin. }
  apply bind_cases in Hf as [[e2 [Hm _]]|[t3 [tc [t4 [Hm [Hf ->]]]]]];
    apply io_cases in Hm as [-> _].
  { exfalso. exact (in_map_Io_put _ _ _ _ _ _ Hin). }
  apply in_app_or in Hin as [Hin|Hin]; [exfalso; exact (in_map_Io_put _ _ _ _ _ _ Hin)|].
  apply bind_cases in Hf as [[e3 [Hm _]]|[t5 [rp [t6 [Hm [Hf ->]]]]]];
    apply io_cases in Hm as [-> _].
  { destruct Hin. }
  apply in_app_or in Hin as [Hin|Hin]; [destruct Hin|].
  apply bind_cases in Hf as [[e4 [Hm _]]|[t7 [g [t8 [Hm [Hf ->]]]]]];
    apply io_cases in Hm as [-> _].
  { exfalso. exact (in_map_Io_put _ _ _ _ _ _ Hin). }
  apply in_app_or in Hin as [Hin|Hin]; [exfalso; exact (in_map_Io_put _ _ _ _ _ _ Hin)|].
  destruct g as [| | | | content | |]; try (injection Hf as <- _; destruct Hin).
  unfold save_output in Hf. destruct (write_raises _).
  { injection Hf as <- _. destruct Hin. }
  apply bind_cases in Hf as [[e5 [Hs _]]|[t9 [u [t10 [Hs [Hf ->]]]]]];
    [discriminate Hs|].
  injection Hs as <- _.
  apply in_app_or in Hin as [Hin|Hin]; [destruct Hin as [Hin|[]]; discriminate Hin|].
  unfold upload_to_s3 in Hf.
  apply bind_cases in Hf as [[e6 [Hu _]]|[t11 [url [t12 [Hu [Hf ->]]]]]].
  - destruct (upload_error _ _ _) as [[c msg]|]; injection Hu as <- _;
      (destruct Hin as [Hin|[]]; injection Hin as <- <- <- <- <-);
      eexists; cbn [app]; repeat apply ends_with_two_app; exists []; reflexivity.
  - destruct (upload_error _ _ _) as [[c msg]|]; [discriminate Hu|].
    injection Hu as <- _. injection Hf as <- _.
    destruct Hin as [Hin|[]]; injection Hin as <- <- <- <- <-.
    eexists. cbn [app]. repeat apply ends_with_two_app. exists []. reflexivity.
Qed.

(** Every file process_prompt reads itself, whatever its outcome, lies
    under the resolved prompts root (the configuration) or under the
    resolved templates root (the template, and then its size was checked
    against [MAX_TEMPLATE_SIZE] first): the root test is the string prefix
    test of the resolved paths. The upload reads one more file, the local
    output file: it is the file of the write just before the upload, and
    the upload is the last effect. *)
Theorem process_prompt_reads_inside_roots
  resolve stat_size read_file parse_json invoke_model write_raises upload_error
  py_str_other prompts_dir templates_dir (self : PromptProcessor) (config_path : string)
  (trace : list step) r :
  process_prompt resolve stat_size read_file parse_json invoke_model write_raises
    upload_error py_str_other prompts_dir templates_dir self config_path = (trace, r) ->
  (forall p, In (Io (ReadFile p)) trace ->
   (exists base, resolve prompts_dir = Some base /\ startswith p base = true) \/
   (exists base, resolve templates_dir = Some base /\ startswith p base = true /\
    exists size, stat_size p = Some size /\ size <= MAX_TEMPLATE_SIZE)) /\
  (forall local_path bucket key content_type cache_control,
   In (Put local_path bucket key content_type cache_control) trace ->
   exists text pre,
     trace = (pre ++ [Write local_path text;
                      Put local_path bucket key content_type cache_control])%list).
Proof.
  intros H. split.
  - intros p. exact (process_prompt_reads_roots _ _ _ _ _ _ _ _ _ _ _ _ _ _ p H).
  - intros lp b k ct cc. exact (process_prompt_put_after_write _ _ _ _ _ _ _ _ _ _ _ _ _ _
                                  lp b k ct cc H).
Qed.

(** ** Witnesses: the claims' theorems at concrete inputs *)

Lemma validate_path_prefix_check_witness :
  _validate_path (resolve_lexical "/srv/app") "prompts/test.json" "/srv/app/prompts"
  = Ok "/srv/app/prompts/test.json" /\
  _validate_path (fun _ => None) "prompts/test.json" "/srv/app/prompts"
  = Err (InvalidPath "prompts/test.json").
Proof.
  destruct validate_path_prefix_check as [H1 [H2 _]]. split.
  - rewrite (H1 (resolve_lexical "/srv/app") "prompts/test.json" "/srv/app/prompts"
               "/srv/app/prompts/test.json" "/srv/app/prompts");
      vm_compute; reflexivity.
  - apply H2. left. reflexivity.
Defined.

Lemma render_missing_variable_witness :
  render_template "Hello $name from $company!" [("name", "John")]
  = Err (MissingVariable "company").
Proof.
  destruct render_missing_variable as [_ [H _]].
  apply (H _ _ (firstn 13 (scan "Hello $name from $company!")) "company"
           (skipn 14 (scan "Hello $name from $company!"))).
  - left. vm_compute. reflexivity.
  - vm_compute. reflexivity.
  - vm_compute. reflexivity.
Defined.

Lemma render_all_resolved_witness :
  render_template "Hi ${who}, $$5" [("who", "Ann")]
  = Ok (fill [("who", "Ann")] (scan "Hi ${who}, $$5")).
Proof.
  destruct render_all_resolved as [H _].
  apply (H "Hi ${who}, $$5" [("who", "Ann")]). vm_compute. reflexivity.
Defined.

Lemma render_idempotent_without_dollar_witness :
  render_template "Hello John" [] = Ok "Hello John".
Proof.
  apply (render_idempotent_without_dollar "Hello $name" [("name", "John")]);
    vm_compute; reflexivity.
Defined.

Lemma invoke_model_family_dispatch_witness :
  invoke_bedrock (fun _ _ => inr (JObj [("content", JArr [JObj [("text", JStr "Hi")]])]))
    "Say hi" None None
  = ([InvokeModel DEFAULT_MODEL_ID (claude_body "Say hi" DEFAULT_MODEL_PARAMS)],
     Ok (JStr "Hi")) /\
  invoke_bedrock (fun _ _ => inr JNull) "Say hi" (Some "meta.llama3-8b") None
  = ([], Err (UnsupportedModel "meta.llama3-8b")).
Proof.
  split.
  - destruct (invoke_model_family_dispatch
                (fun _ _ => inr (JObj [("content", JArr [JObj [("text", JStr "Hi")]])]))
                "Say hi" None None) as [_ [H _]].
    rewrite (H (eq_refl _) (JObj [("content", JArr [JObj [("text", JStr "Hi")]])]) eq_refl).
    reflexivity.
  - destruct (invoke_model_family_dispatch (fun _ _ => inr JNull)
                "Say hi" (Some "meta.llama3-8b") None) as [H _].
    apply H; vm_compute; reflexivity.
Defined.

Lemma load_config_variable_limit_witness :
  load_config (resolve_lexical "/srv/app") (fun _ => Some "{...}")
    (fun _ => Some (sample_config (sample_variables 2)))
    "/srv/app/prompts" "prompts/test.json"
  = ([ReadFile "/srv/app/prompts/test.json"], Ok (sample_config (sample_variables 2))).
Proof.
  destruct load_config_variable_limit as [H _].
  destruct (H (resolve_lexical "/srv/app") (fun _ => Some "{...}")
              (fun _ => Some (sample_config (sample_variables 2)))
              "/srv/app/prompts" "prompts/test.json" "/srv/app/prompts/test.json"
              "{...}" (sample_config (sample_variables 2)))
    as [_ H2]; [vm_compute; reflexivity | reflexivity | reflexivity
               | vm_compute; reflexivity |].
  apply H2. apply Nat.leb_le. vm_compute. reflexivity.
Defined.

Lemma init_region_allowlist_witness :
  PromptProcessor_init (fun _ _ => false) "mars-north-1" "test-bucket" "beta/"
  = ([], Err (InvalidRegion "mars-north-1")).
Proof.
  destruct init_region_allowlist as [_ [_ H]].
  apply (proj1 (H (fun _ _ => false) "mars-north-1" "test-bucket" "beta/")).
  vm_compute. intuition discriminate.
Defined.

Lemma init_prefix_single_trailing_slash_witness :
  ends_with_single_slash "/" /\
  startswith (s3_key_of (mkProcessor "us-east-1" "test-bucket" "/") "report" "html") "/"
  = true.
Proof.
  destruct init_prefix_single_trailing_slash as [_ H].
  destruct (H (fun _ _ => false) "us-east-1" "test-bucket" ""
              [CreateClient "bedrock-runtime" "us-east-1"; CreateClient "s3" "us-east-1"]
              (mkProcessor "us-east-1" "test-bucket" "/") eq_refl)
    as [_ [Hend [_ Hempty]]].
  split; [exact Hend|]. apply (proj2 (Hempty eq_refl)).
Defined.

(** ** Witnesses: the further theorems at concrete inputs *)

Lemma validate_path_accepts_prefix_siblings_witness :
  _validate_path (resolve_lexical "/srv/app") "prompt_templates_old/t.txt"
    "/srv/app/prompt_templates"
  = Ok "/srv/app/prompt_templates_old/t.txt" /\
  startswith "/srv/app/prompt_templates_old/t.txt" "/srv/app/prompt_templates/" = false.
Proof.
  destruct (validate_path_accepts_prefix_siblings "/srv/app" "prompt_templates" "_old"
              "t.txt" "/srv/app/prompt_templates") as [H1 H2].
  - vm_compute. reflexivity.
  - repeat split; try discriminate; reflexivity.
  - repeat split; try discriminate; reflexivity.
  - repeat split; try discriminate; reflexivity.
  - split; [exact H1|]. apply H2. discriminate.
Defined.

Lemma template_path_in_templates_root_witness :
  _validate_path (resolve_lexical "/srv/app") (path_div "prompt_templates" "welcome.txt")
    (PROMPT_TEMPLATES_DIR "/srv/app")
  = Ok (PROMPT_TEMPLATES_DIR "/srv/app" ++ "/" ++ "welcome.txt").
Proof.
  apply (template_path_in_templates_root "/srv/app" "welcome.txt").
  vm_compute. reflexivity.
Defined.

Lemma invoke_params_without_keys_as_default_witness :
  invoke_bedrock (fun _ _ => inr JNull) "Say hi" None (Some [("stop", JStr "END")])
  = invoke_bedrock (fun _ _ => inr JNull) "Say hi" None None.
Proof.
  apply (invoke_params_without_keys_as_default (fun _ _ => inr JNull) "Say hi" None
           [("stop", JStr "END")]); reflexivity.
Defined.

Lemma invoke_params_other_keys_ignored_witness :
  invoke_bedrock (fun _ _ => inr JNull) "Say hi" (Some "amazon.titan-text-express-v1")
    (Some [("max_tokens", JInt 100); ("stop", JStr "END")])
  = invoke_bedrock (fun _ _ => inr JNull) "Say hi" (Some "amazon.titan-text-express-v1")
    (Some [("max_tokens", JInt 100)]).
Proof.
  apply (invoke_params_other_keys_ignored (fun _ _ => inr JNull) "Say hi"
           (Some "amazon.titan-text-express-v1")
           [("max_tokens", JInt 100); ("stop", JStr "END")] [("max_tokens", JInt 100)]);
    reflexivity.
Defined.

Lemma s3_key_no_dotdot_witness :
  contains ".." (s3_key_of (mkProcessor "us-east-1" "my-bucket" "beta/") "report_v2" "md")
  = false.
Proof.
  apply (s3_key_no_dotdot (fun _ _ => false) "us-east-1" "my-bucket" "beta/"
           [CreateClient "bedrock-runtime" "us-east-1"; CreateClient "s3" "us-east-1"]
           (mkProcessor "us-east-1" "my-bucket" "beta/") "report_v2" "md").
  - vm_compute. reflexivity.
  - vm_compute. reflexivity.
  - right. reflexivity.
Defined.

Lemma process_prompt_early_error_no_effects_witness :
  forallb is_io
    [Io (ReadFile "/srv/app/prompts/welcome.json");
     Io (StatFile "/srv/app/prompt_templates/test_template.txt");
     Io (ReadFile "/srv/app/prompt_templates/test_template.txt")] = true /\
  existsb is_invoke
    [Io (ReadFile "/srv/app/prompts/welcome.json");
     Io (StatFile "/srv/app/prompt_templates/test_template.txt");
     Io (ReadFile "/srv/app/prompt_templates/test_template.txt")] = false.
Proof.
  apply (process_prompt_early_error_no_effects (resolve_lexical "/srv/app")
    (fun _ => Some 11)
    (fun p => if String.eqb p "/srv/app/prompts/welcome.json" then Some "{...}"
              else if String.eqb p "/srv/app/prompt_templates/test_template.txt"
              then Some "Hello $name" else None)
    (fun _ => Some (sample_config []))
    (fun _ _ => inr (JObj [("content", JArr [JObj [("text", JStr "Hi Ann")]])]))
    (fun _ => false) (fun _ _ _ => None) (fun _ => "")
    "/srv/app/prompts" "/srv/app/prompt_templates"
    (mkProcessor "us-east-1" "my-bucket" "beta/") "prompts/welcome.json"
    _ (Raised (MissingVariable "name"))).
  - vm_compute. reflexivity.
  - reflexivity.
Defined.


Lemma main_outcome_witness :
  let evs := [CreateClient "bedrock-runtime" "us-east-1"; CreateClient "s3" "us-east-1"] in
  let out := Some ([mkResult "prompts/a.json" "" "" "" "success"], ["prompts/bad.json"]) in
  (["prompts/a.json"; "prompts/bad.json"] = [] -> evs = [] /\ out = None /\ 1 = 2) /\
  (1 = 0 <-> exists results, out = Some (results, [])) /\
  (forall results failed, out = Some (results, failed) ->
     List.length results + List.length failed
     = List.length ["prompts/a.json"; "prompts/bad.json"] /\
     incl failed ["prompts/a.json"; "prompts/bad.json"]) /\
  (["prompts/a.json"; "prompts/bad.json"] <> [] ->
   (Some "my-bucket" = None \/ Some "my-bucket" = Some "") -> evs = [] /\ out = None /\ 1 = 1).
Proof.
  intros evs out.
  apply (main_outcome unit
    (fun _ w f => (w, if String.eqb f "prompts/bad.json" then inl NotText
                      else inr (mkResult f "" "" "" "success")))
    (fun _ _ => false) (fun _ => None) tt ["prompts/a.json"; "prompts/bad.json"]
    None (Some "my-bucket") None).
  vm_compute. reflexivity.
Defined.

Lemma load_template_reads_only_checked_witness :
  resolve_lexical "/srv/app" "prompt_templates/welcome.txt"
  = Some "/srv/app/prompt_templates/welcome.txt" /\
  (exists base, resolve_lexical "/srv/app" "/srv/app/prompt_templates" = Some base /\
     startswith "/srv/app/prompt_templates/welcome.txt" base = true) /\
  (exists size, (fun _ : string => Some 11) "/srv/app/prompt_templates/welcome.txt"
     = Some size /\ size <= MAX_TEMPLATE_SIZE).
Proof.
  apply (load_template_reads_only_checked (resolve_lexical "/srv/app") (fun _ => Some 11)
           (fun _ => Some "Hi") "/srv/app/prompt_templates" "prompt_templates/welcome.txt"
           "/srv/app/prompt_templates/welcome.txt").
  vm_compute. right. left. reflexivity.
Defined.

Lemma process_prompt_reads_inside_roots_witness :
  let trace :=
    [Io (ReadFile "/srv/app/prompts/welcome.json");
     Io (StatFile "/srv/app/prompt_templates/test_template.txt");
     Io (ReadFile "/srv/app/prompt_templates/test_template.txt");
     Io (InvokeModel DEFAULT_MODEL_ID (claude_body "Hello Ann" DEFAULT_MODEL_PARAMS));
     Write "outputs/test_output.html" (output_text "Hi Ann" "html");
     Put "outputs/test_output.html" "my-bucket" "beta/outputs/test_output.html"
       "text/html" "max-age=300"] in
  (forall p, In (Io (ReadFile p)) trace ->
   (exists base, resolve_lexical "/srv/app" "/srv/app/prompts" = Some base /\
      startswith p base = true) \/
   (exists base, resolve_lexical "/srv/app" "/srv/app/prompt_templates" = Some base /\
      startswith p base = true /\
    exists size, (fun _ : string => Some 11) p = Some size /\ size <= MAX_TEMPLATE_SIZE)) /\
  (forall local_path bucket key content_type cache_control,
   In (Put local_path bucket key content_type cache_control) trace ->
   exists text pre,
     trace = (pre ++ [Write local_path text;
                      Put local_path bucket key content_type cache_control])%list).
Proof.
  intros trace.
  apply (process_prompt_reads_inside_roots (resolve_lexical "/srv/app")
    (fun _ => Some 11)
    (fun p => if String.eqb p "/srv/app/prompts/welcome.json" then Some "{...}"
              else if String.eqb p "/srv/app/prompt_templates/test_template.txt"
              then Some "Hello $name" else None)
    (fun _ => Some (sample_config [("name", JStr "Ann")]))
    (fun _ _ => inr (JObj [("content", JArr [JObj [("text", JStr "Hi Ann")]])]))
    (fun _ => false) (fun _ _ _ => None) (fun _ => "")
    "/srv/app/prompts" "/srv/app/prompt_templates"
    (mkProcessor "us-east-1" "my-bucket" "beta/") "prompts/welcome.json"
    trace
    (inr (mkResult "prompts/welcome.json" "outputs/test_output.html"
            "beta/outputs/test_output.html"
            "https://my-bucket.s3.us-east-1.amazonaws.com/beta/outputs/test_output.html"
            "success"))).
  vm_compute. reflexivity.
Defined.
